(** * torch/utils/_pytree.py: flattening, unflattening and broadcasting pytrees

    A shallow embedding of the pytree utilities.  Python values are modelled
    by [pyval]; the registry [SUPPORTED_NODES] is a finite map from runtime
    types to [NodeDef]s; exceptions are modelled by the [pyresult] type. *)

From stdpp Require Import base option list strings countable gmap.
From Stdlib Require Import ZArith Lia.

#[local] Set Warnings "-register-all".

(** ** Runtime types and exceptions *)

(** The runtime type of a value.  [Tdict], [Tlist] and [Ttuple] are the exact
    builtin types; [Tother] stands for every other type (int, str, Tensor,
    subclasses of the builtins, ...). *)
Inductive pytype := Tdict | Tlist | Ttuple | Tother.

#[global] Instance pytype_eq_dec : EqDecision pytype.
Proof. solve_decision. Defined.

Definition pytype_code (t : pytype) : nat :=
  match t with Tdict => 0 | Tlist => 1 | Ttuple => 2 | Tother => 3 end.

Definition pytype_decode (n : nat) : pytype :=
  match n with 0 => Tdict | 1 => Tlist | 2 => Ttuple | _ => Tother end.

#[global] Instance pytype_countable : Countable pytype.
Proof.
  refine (inj_countable' pytype_code pytype_decode _).
  intros []; reflexivity.
Defined.

(** Exceptions.  The two [ValueError]s raised by [tree_unflatten] are kept
    apart by their message: [InvalidSpecKind] is "Expected `spec` to be
    instance of TreeSpec", [LeafCountMismatch] is "`values` has length
    {actual} but the spec refers to a pytree that holds {expected} items".
    [RecursionError] is what Python raises when the call stack is used up. *)
Inductive error :=
| InvalidSpecKind
| LeafCountMismatch (actual expected : nat)
| KeyError
| TypeError
| IndexError
| AttributeError
| AssertionError
| RecursionError.

Inductive pyresult (A : Type) :=
| Ok (a : A)
| Raise (e : error).
Arguments Ok {A} a.
Arguments Raise {A} e.

(** Sequencing: an exception raised by the first computation propagates. *)
#[global] Instance pyresult_bind : MBind pyresult := λ A B k r,
  match r with
  | Ok a => k a
  | Raise e => Raise e
  end.

(** What the source leaves to Python when it renders a spec: the [repr] of
    a dict key and the [__name__] of the types other than the three builtin
    containers. *)
Class Rendering (key : Type) := {
  repr_key : key → string;
  other_type_name : string;
}.

Section pytree.
Context {atom key : Type} `{!EqDecision key} `{!Rendering key}.

(** ** Values *)

(** A Python value as the pytree code sees it: a value of an unregistered
    type ([PLeaf], opaque), a list, a tuple, or a dict.  A dict is the
    sequence of its items in insertion order; [py_wf] says its keys are
    distinct, as they are in every Python dict. *)
Inductive pyval :=
| PLeaf (a : atom)
| PList (xs : list pyval)
| PTuple (xs : list pyval)
| PDict (items : list (key * pyval)).

Definition type_of (v : pyval) : pytype :=
  match v with
  | PLeaf _ => Tother
  | PList _ => Tlist
  | PTuple _ => Ttuple
  | PDict _ => Tdict
  end.

Fixpoint py_wf (v : pyval) : bool :=
  match v with
  | PLeaf _ => true
  | PList xs => forallb py_wf xs
  | PTuple xs => forallb py_wf xs
  | PDict items =>
      bool_decide (NoDup items.*1) && forallb (λ kv, py_wf kv.2) items
  end.

(** Nesting depth: a bound on how deep [tree_flatten] calls itself. *)
Fixpoint height (v : pyval) : nat :=
  match v with
  | PLeaf _ => 0
  | PList xs => S (foldr (λ x n, height x `max` n) 0 xs)
  | PTuple xs => S (foldr (λ x n, height x `max` n) 0 xs)
  | PDict items => S (foldr (λ kv n, height kv.2 `max` n) 0 items)
  end.

(** ** Contexts and node definitions *)

(** [Context = Any].  The registered flatten functions produce [None] (list,
    tuple) or the list of keys (dict). *)
Inductive Context_t :=
| CNone
| CKeys (ks : list key).

#[global] Instance Context_t_eq_dec : EqDecision Context_t.
Proof. solve_decision. Defined.

Record NodeDef := MkNodeDef {
  flatten_fn : pyval → pyresult (list pyval * Context_t);
  unflatten_fn : list pyval → Context_t → pyresult pyval;
}.

Definition _register_pytree_node (typ : pytype)
    (flatten_fn : pyval → pyresult (list pyval * Context_t))
    (unflatten_fn : list pyval → Context_t → pyresult pyval)
    (nodes : gmap pytype NodeDef) : gmap pytype NodeDef :=
  <[typ := MkNodeDef flatten_fn unflatten_fn]> nodes.

(** [d.values(), list(d.keys())]; a value without [values] raises. *)
Definition _dict_flatten (d : pyval) : pyresult (list pyval * Context_t) :=
  match d with
  | PDict items => Ok (items.*2, CKeys items.*1)
  | _ => Raise AttributeError
  end.

(** [d[key] = value]: an existing key keeps its position, a new key goes to
    the end. *)
Fixpoint dict_setitem (d : list (key * pyval)) (k : key) (v : pyval)
    : list (key * pyval) :=
  match d with
  | [] => [(k, v)]
  | (k', v') :: d' =>
      if decide (k' = k) then (k', v) :: d' else (k', v') :: dict_setitem d' k v
  end.

(** [{key: value for key, value in zip(context, values)}]; [zip(None, _)]
    raises. *)
Definition _dict_unflatten (values : list pyval) (context : Context_t)
    : pyresult pyval :=
  match context with
  | CKeys ks =>
      Ok (PDict (foldl (λ d kv, dict_setitem d kv.1 kv.2) [] (zip ks values)))
  | CNone => Raise TypeError
  end.

(** [d, None]; the children are then iterated over. *)
Definition _list_flatten (d : pyval) : pyresult (list pyval * Context_t) :=
  match d with
  | PList xs => Ok (xs, CNone)
  | _ => Raise TypeError
  end.

Definition _list_unflatten (values : list pyval) (context : Context_t)
    : pyresult pyval :=
  Ok (PList values).

(** [list(d), None] *)
Definition _tuple_flatten (d : pyval) : pyresult (list pyval * Context_t) :=
  match d with
  | PTuple xs => Ok (xs, CNone)
  | _ => Raise TypeError
  end.

Definition _tuple_unflatten (values : list pyval) (context : Context_t)
    : pyresult pyval :=
  Ok (PTuple values).

(** The registry after the three module-level registrations. *)
Definition SUPPORTED_NODES : gmap pytype NodeDef :=
  _register_pytree_node Ttuple _tuple_flatten _tuple_unflatten
    (_register_pytree_node Tlist _list_flatten _list_unflatten
      (_register_pytree_node Tdict _dict_flatten _dict_unflatten ∅)).

(** [SUPPORTED_NODES[typ]] where [typ] may be [None]. *)
Definition SUPPORTED_NODES_getitem (typ : option pytype) : pyresult NodeDef :=
  match typ with
  | Some t =>
      match SUPPORTED_NODES !! t with
      | Some nd => Ok nd
      | None => Raise KeyError
      end
  | None => Raise KeyError
  end.

Definition _is_leaf (pytree : pyval) : bool :=
  bool_decide (type_of pytree ∉ dom SUPPORTED_NODES).

(** ** TreeSpec *)

(** A [TreeSpec] object with its four attributes; [is_LeafSpec] records
    whether the object's class is [LeafSpec]. *)
Inductive TreeSpec := MkTreeSpec {
  is_LeafSpec : bool;
  type : option pytype;
  context : Context_t;
  children_specs : list TreeSpec;
  num_leaves : nat;
}.

(** [TreeSpec.__init__] *)
Definition TreeSpec_init (typ : option pytype) (context : Context_t)
    (children_specs : list TreeSpec) : TreeSpec :=
  MkTreeSpec false typ context children_specs
    (sum_list (num_leaves <$> children_specs)).

(** [LeafSpec.__init__]: [super().__init__(None, None, [])], then
    [num_leaves = 1]. *)
Definition LeafSpec_init : TreeSpec :=
  let self := TreeSpec_init None CNone [] in
  MkTreeSpec true (type self) (context self) (children_specs self) 1.

(** The specs Python code can build: by calling one of the two constructors
    on specs built the same way (no attribute is reassigned and no
    [children_specs] list is changed afterwards). *)
Inductive constructed : TreeSpec → Prop :=
| constructed_leaf : constructed LeafSpec_init
| constructed_node typ context children_specs :
    Forall constructed children_specs →
    constructed (TreeSpec_init typ context children_specs).

(** [==] on two lists: equal lengths and pairwise equal elements. *)
Definition list_eq {A} (eq : A → A → bool) : list A → list A → bool :=
  fix go (l1 l2 : list A) {struct l1} : bool :=
    match l1, l2 with
    | [], [] => true
    | x1 :: l1', x2 :: l2' => eq x1 x2 && go l1' l2'
    | _, _ => false
    end.

(** [TreeSpec.__eq__] *)
Fixpoint TreeSpec_eq (self other : TreeSpec) {struct self} : bool :=
  bool_decide (type self = type other)
  && bool_decide (context self = context other)
  && list_eq TreeSpec_eq (children_specs self) (children_specs other)
  && bool_decide (num_leaves self = num_leaves other).

(** An argument passed where a spec is expected: an instance of [TreeSpec]
    (or of its subclass [LeafSpec]), or some other object. *)
Inductive pyobj :=
| OSpec (spec : TreeSpec)
| OValue (v : pyval).

Definition isinstance_TreeSpec (o : pyobj) : bool :=
  match o with
  | OSpec _ => true
  | OValue _ => false
  end.

(** ** TreeSpec.__repr__ and the message of a count mismatch *)

(** [typ.__name__] *)
Definition type_name (t : pytype) : string :=
  match t with
  | Tdict => "dict"
  | Tlist => "list"
  | Ttuple => "tuple"
  | Tother => other_type_name
  end.

(** [', '.join(parts)] *)
Fixpoint join_comma (parts : list string) : string :=
  match parts with
  | [] => ""
  | [part] => part
  | part :: rest => part +:+ ", " +:+ join_comma rest
  end.

(** The renderings of the elements of a list, left to right; the first
    exception stops the rendering. *)
Definition repr_elements {A} (repr_element : A → pyresult string)
    : list A → pyresult (list string) :=
  fix go (l : list A) {struct l} :=
    match l with
    | [] => Ok []
    | a :: l' =>
        part ← repr_element a;
        parts ← go l';
        Ok (part :: parts)
    end.

(** [f'{self.context}']: [None], or the list of the keys' [repr]s. *)
Definition Context_repr (context : Context_t) : string :=
  match context with
  | CNone => "None"
  | CKeys ks => "[" +:+ join_comma (repr_key <$> ks) +:+ "]"
  end.

(** [TreeSpec.__repr__], overridden by [LeafSpec.__repr__]:
    [f'TreeSpec({self.type.__name__}, {self.context}, {self.children_specs})'],
    whose fields are rendered left to right; [None] has no [__name__]. *)
Fixpoint TreeSpec_repr (self : TreeSpec) : pyresult string :=
  if is_LeafSpec self then Ok "*"
  else
    name ← match type self with
           | Some t => Ok (type_name t)
           | None => Raise AttributeError
           end;
    children ← repr_elements TreeSpec_repr (children_specs self);
    Ok ("TreeSpec(" +:+ name +:+ ", " +:+ Context_repr (context self)
        +:+ ", [" +:+ join_comma children +:+ "])").

(** The [raise ValueError(f'... ({spec}).')] statement of [tree_unflatten]:
    the message is formatted, which renders [spec], and then the exception
    is raised. *)
Definition raise_length_mismatch (values : list pyval) (spec : TreeSpec)
    : pyresult pyval :=
  rendered ← TreeSpec_repr spec;
  Raise (LeafCountMismatch (length values) (num_leaves spec)).

(** A spec that can be rendered: below the root, down to the [LeafSpec]s,
    every node has a type. *)
Fixpoint renderable (spec : TreeSpec) : bool :=
  is_LeafSpec spec
  || (bool_decide (type spec ≠ None)
      && forallb renderable (children_specs spec)).

(** ** tree_flatten *)

(** The [for child in child_pytrees] loop of [tree_flatten], started with
    the current [result] and [children_specs]. *)
Fixpoint tree_flatten_loop (rec : pyval → pyresult (list pyval * TreeSpec))
    (child_pytrees : list pyval) (result : list pyval)
    (children_specs : list TreeSpec) : pyresult (list pyval * list TreeSpec) :=
  match child_pytrees with
  | [] => Ok (result, children_specs)
  | child :: rest =>
      '(flat, child_spec) ← rec child;
      tree_flatten_loop rec rest (result ++ flat) (children_specs ++ [child_spec])
  end.

(** [tree_flatten] allowed to call itself [limit] deep: the recursion
    budget stands for the room left on the call stack. *)
Fixpoint tree_flatten_limit (limit : nat) (pytree : pyval)
    : pyresult (list pyval * TreeSpec) :=
  match limit with
  | 0 => Raise RecursionError
  | S limit =>
      if _is_leaf pytree then Ok ([pytree], LeafSpec_init)
      else
        nd ← SUPPORTED_NODES_getitem (Some (type_of pytree));
        '(child_pytrees, context) ← flatten_fn nd pytree;
        '(result, children_specs) ←
          tree_flatten_loop (tree_flatten_limit limit) child_pytrees [] [];
        Ok (result, TreeSpec_init (Some (type_of pytree)) context children_specs)
  end.

(** [tree_flatten] with a budget large enough for the value
    ([tree_flatten_limit_enough] shows that a larger one changes nothing). *)
Definition tree_flatten (pytree : pyval) : pyresult (list pyval * TreeSpec) :=
  tree_flatten_limit (S (height pytree)) pytree.

(** ** tree_unflatten *)

(** [values[start:end]] for [start <= end]. *)
Definition slice (values : list pyval) (start end_ : nat) : list pyval :=
  take (end_ - start) (drop start values).

(** The [for child_spec in spec.children_specs] loop of [tree_unflatten],
    started with the current [start], [end], [child_pytrees] and the number of
    pytrees built so far. *)
Definition tree_unflatten_loop
    (rec : list pyval → TreeSpec → nat * pyresult pyval) (values : list pyval)
    : list TreeSpec → nat → nat → list pyval → nat → nat * pyresult (list pyval) :=
  fix loop (specs : list TreeSpec) (start end_ : nat)
      (child_pytrees : list pyval) (built : nat) {struct specs} :=
    match specs with
    | [] => (built, Ok child_pytrees)
    | child_spec :: specs' =>
        let end_ := end_ + num_leaves child_spec in
        match rec (slice values start end_) child_spec with
        | (n, Raise e) => (built + n, Raise e)
        | (n, Ok child) =>
            loop specs' end_ end_ (child_pytrees ++ [child]) (built + n)
        end
    end.

(** The body of [tree_unflatten] once [spec] is known to be a [TreeSpec].
    The first component of the result counts the pytrees built (leaves picked
    and containers put together) up to the return or the exception. *)
Fixpoint tree_unflatten_spec (values : list pyval) (spec : TreeSpec)
    {struct spec} : nat * pyresult pyval :=
  if bool_decide (length values ≠ num_leaves spec) then
    (0, raise_length_mismatch values spec)
  else if is_LeafSpec spec then
    match values with
    | v :: _ => (1, Ok v)
    | [] => (0, Raise IndexError)
    end
  else
    match SUPPORTED_NODES_getitem (type spec) with
    | Raise e => (0, Raise e)
    | Ok nd =>
        match
          tree_unflatten_loop tree_unflatten_spec values
            (children_specs spec) 0 0 [] 0
        with
        | (n, Raise e) => (n, Raise e)
        | (n, Ok child_pytrees) =>
            match unflatten_fn nd child_pytrees (context spec) with
            | Ok pytree => (S n, Ok pytree)
            | Raise e => (n, Raise e)
            end
        end
    end.

Definition tree_unflatten_built (values : list pyval) (spec : pyobj)
    : nat * pyresult pyval :=
  match spec with
  | OSpec spec => tree_unflatten_spec values spec
  | OValue _ => (0, Raise InvalidSpecKind)
  end.

Definition tree_unflatten (values : list pyval) (spec : pyobj) : pyresult pyval :=
  (tree_unflatten_built values spec).2.

(** ** _broadcast_to_and_flatten *)

(** The [for child, child_spec in zip(child_pytrees, spec.children_specs)]
    loop of [_broadcast_to_and_flatten], started with the current [result]. *)
Definition _broadcast_loop
    (rec : pyval → TreeSpec → pyresult (option (list pyval)))
    : list pyval → list TreeSpec → list pyval → pyresult (option (list pyval)) :=
  fix loop (child_pytrees : list pyval) (specs : list TreeSpec)
      (result : list pyval) {struct specs} :=
    match child_pytrees, specs with
    | child :: child_pytrees', child_spec :: specs' =>
        flat ← rec child child_spec;
        match flat with
        | None => Ok None
        | Some flat => loop child_pytrees' specs' (result ++ flat)
        end
    | _, _ => Ok (Some result)
    end.

(** The body of [_broadcast_to_and_flatten] below the [assert]; [None] is
    the function's "not broadcastable" answer. *)
Fixpoint _broadcast_spec (pytree : pyval) (spec : TreeSpec) {struct spec}
    : pyresult (option (list pyval)) :=
  if _is_leaf pytree then Ok (Some (replicate (num_leaves spec) pytree))
  else if is_LeafSpec spec then Ok None
  else if bool_decide (Some (type_of pytree) ≠ type spec) then Ok None
  else
    nd ← SUPPORTED_NODES_getitem (Some (type_of pytree));
    '(child_pytrees, ctx) ← flatten_fn nd pytree;
    if bool_decide (length child_pytrees ≠ length (children_specs spec))
       || bool_decide (ctx ≠ context spec)
    then Ok None
    else _broadcast_loop _broadcast_spec child_pytrees (children_specs spec) [].

Definition _broadcast_to_and_flatten (pytree : pyval) (spec : pyobj)
    : pyresult (option (list pyval)) :=
  match spec with
  | OSpec spec => _broadcast_spec pytree spec
  | OValue _ => Raise AssertionError
  end.

(** ** Reference notions used to state the properties *)

(** The immediate sub-pytrees of a value, in iteration order. *)
Definition children (v : pyval) : list pyval :=
  match v with
  | PLeaf _ => []
  | PList xs => xs
  | PTuple xs => xs
  | PDict items => items.*2
  end.

(** The leaves of a value in left-to-right, depth-first order. *)
Fixpoint preorder_leaves (v : pyval) : list pyval :=
  match v with
  | PLeaf _ => [v]
  | PList xs => concat (preorder_leaves <$> xs)
  | PTuple xs => concat (preorder_leaves <$> xs)
  | PDict items => concat ((λ kv, preorder_leaves kv.2) <$> items)
  end.

(** The number of [LeafSpec] nodes in the subtree rooted at a spec. *)
Fixpoint count_LeafSpec (spec : TreeSpec) : nat :=
  (if is_LeafSpec spec then 1 else 0)
  + sum_list (count_LeafSpec <$> children_specs spec).

(** Structural equality of specs, as the specification words it: same
    variant, same container type, same context, and children pairwise
    structurally equal. *)
Fixpoint structurally_equal (s1 s2 : TreeSpec) {struct s1} : bool :=
  bool_decide (is_LeafSpec s1 = is_LeafSpec s2)
  && bool_decide (type s1 = type s2)
  && bool_decide (context s1 = context s2)
  && list_eq structurally_equal (children_specs s1) (children_specs s2).

(** The context the registered [flatten_fn] computes for a container. *)
Definition node_context (v : pyval) : Context_t :=
  match v with
  | PDict items => CKeys items.*1
  | _ => CNone
  end.

(** The spec of a value, by structural recursion: what [tree_flatten]
    returns as its second component ([tree_flatten_eq]). *)
Fixpoint shape (v : pyval) : TreeSpec :=
  match v with
  | PLeaf _ => LeafSpec_init
  | PList xs => TreeSpec_init (Some Tlist) CNone (shape <$> xs)
  | PTuple xs => TreeSpec_init (Some Ttuple) CNone (shape <$> xs)
  | PDict items =>
      TreeSpec_init (Some Tdict) (CKeys items.*1) ((λ kv, shape kv.2) <$> items)
  end.

(** A spec that is structurally compatible with a real decomposition: every
    node is as a constructor leaves it, a [LeafSpec] carries no type, context
    or children, and every other node carries a registered type together with
    a context its [flatten_fn] can produce for that many children (for a
    dict, distinct keys, one for each child). *)
Definition context_fits (typ : option pytype) (context : Context_t) (n : nat)
    : bool :=
  match typ, context with
  | Some Tdict, CKeys ks => bool_decide (NoDup ks) && bool_decide (length ks = n)
  | Some Tlist, CNone => true
  | Some Ttuple, CNone => true
  | _, _ => false
  end.

Fixpoint compatible_with_decomposition (spec : TreeSpec) : bool :=
  if is_LeafSpec spec then
    bool_decide (type spec = None) && bool_decide (context spec = CNone)
    && bool_decide (length (children_specs spec) = 0)
    && bool_decide (num_leaves spec = 1)
  else
    context_fits (type spec) (context spec) (length (children_specs spec))
    && bool_decide (num_leaves spec = sum_list (num_leaves <$> children_specs spec))
    && forallb compatible_with_decomposition (children_specs spec).

(** A spec whose containers can all be put together again: every node that
    is not a [LeafSpec] names a registered type, and a dict node carries a
    list of keys. *)
Fixpoint recomposable (spec : TreeSpec) : bool :=
  is_LeafSpec spec
  || (match type spec, context spec with
      | Some Tdict, CKeys _ => true
      | Some Tlist, _ => true
      | Some Ttuple, _ => true
      | _, _ => false
      end
      && forallb recomposable (children_specs spec)).

(** ** TreeSpec.__ne__ *)

(** [TreeSpec.__ne__]: [not self.__eq__(other)] *)
Definition TreeSpec_ne (self other : TreeSpec) : bool :=
  negb (TreeSpec_eq self other).

End pytree.

Arguments pyval : clear implicits.
Arguments TreeSpec : clear implicits.
Arguments Context_t : clear implicits.
Arguments pyobj : clear implicits.
Arguments NodeDef : clear implicits.

(** ** Concrete values for the examples: int leaves and str keys *)

Definition int (z : Z) : pyval Z string := PLeaf z.

(** [{"x": [1, 2], "y": (3,)}] *)
Definition nested_value : pyval Z string :=
  PDict [("x"%string, PList [int 1; int 2]); ("y"%string, PTuple [int 3])].

(** [{"a": 1, "b": 2}], [{"a": 3, "b": 4}] and [{"b": 2, "a": 1}] *)
Definition dict_a1_b2 : pyval Z string :=
  PDict [("a"%string, int 1); ("b"%string, int 2)].
Definition dict_a3_b4 : pyval Z string :=
  PDict [("a"%string, int 3); ("b"%string, int 4)].
Definition dict_b2_a1 : pyval Z string :=
  PDict [("b"%string, int 2); ("a"%string, int 1)].

(** [TreeSpec(list, None, [LeafSpec(), LeafSpec()])] *)
Definition two_leaf_list_spec : TreeSpec string :=
  TreeSpec_init (Some Tlist) CNone [LeafSpec_init; LeafSpec_init].

(** [TreeSpec(None, None, [])] *)
Definition childless_spec : TreeSpec string :=
  TreeSpec_init None CNone [].

(** [repr] of a str key without quotes or backslashes: ['x'] *)
Definition repr_str (k : string) : string := "'" +:+ k +:+ "'".

(** The examples have str keys; their values of other types are ints. *)
#[global] Instance str_rendering : Rendering string :=
  {| repr_key := repr_str; other_type_name := "int" |}.

(** * Properties *)

Section properties.
Context {atom key : Type} `{!EqDecision key} `{!Rendering key}.
#[local] Abbreviation pyval := (pyval atom key).
#[local] Abbreviation TreeSpec := (TreeSpec key).
#[local] Abbreviation pyobj := (pyobj atom key).
Implicit Types (v x pytree child : pyval).
Implicit Types (spec s self other : TreeSpec).
Implicit Types (values leaves : list pyval).

(** ** Induction over nested values and specs *)

Lemma pyval_children_ind (P : pyval → Prop) :
  (∀ v, Forall P (children v) → P v) → ∀ v, P v.
Proof.
  intros IH. fix go 1. intros v. apply IH.
  destruct v as [a|xs|xs|items]; simpl.
  - constructor.
  - induction xs as [|x xs IHxs]; constructor; [apply go | exact IHxs].
  - induction xs as [|x xs IHxs]; constructor; [apply go | exact IHxs].
  - induction items as [|[k x] items IHitems]; constructor;
      [apply go | exact IHitems].
Qed.

Lemma TreeSpec_children_ind (P : TreeSpec → Prop) :
  (∀ s, Forall P (children_specs s) → P s) → ∀ s, P s.
Proof.
  intros IH. fix go 1. intros s. apply IH.
  destruct s as [lf typ ctx cs n]; simpl.
  induction cs as [|c cs IHcs]; constructor; [apply go | exact IHcs].
Qed.

(** ** The registry *)

Lemma _is_leaf_PLeaf a : _is_leaf (PLeaf a : pyval) = true.
Proof. reflexivity. Qed.

Lemma _is_leaf_type_of v : _is_leaf v = bool_decide (type_of v = Tother).
Proof. destruct v; reflexivity. Qed.

Lemma _is_leaf_true v : _is_leaf v = true ↔ ∃ a, v = PLeaf a.
Proof.
  destruct v; split; intros H; try discriminate H; eauto;
    destruct H as [? H]; discriminate H.
Qed.

Lemma getitem_dict :
  SUPPORTED_NODES_getitem (Some Tdict)
  = Ok (MkNodeDef (atom:=atom) (key:=key) _dict_flatten _dict_unflatten).
Proof. reflexivity. Qed.

Lemma getitem_list :
  SUPPORTED_NODES_getitem (Some Tlist)
  = Ok (MkNodeDef (atom:=atom) (key:=key) _list_flatten _list_unflatten).
Proof. reflexivity. Qed.

Lemma getitem_tuple :
  SUPPORTED_NODES_getitem (Some Ttuple)
  = Ok (MkNodeDef (atom:=atom) (key:=key) _tuple_flatten _tuple_unflatten).
Proof. reflexivity. Qed.

Lemma getitem_unregistered typ :
  typ ≠ Some Tdict → typ ≠ Some Tlist → typ ≠ Some Ttuple →
  SUPPORTED_NODES_getitem typ = Raise (A:=NodeDef atom key) KeyError.
Proof. destruct typ as [[]|]; intros; done. Qed.

#[local] Arguments SUPPORTED_NODES_getitem : simpl never.

Lemma getitem_registered v :
  _is_leaf v = false →
  ∃ nd, SUPPORTED_NODES_getitem (Some (type_of v)) = Ok nd
        ∧ flatten_fn nd v = Ok (children v, node_context v).
Proof.
  destruct v; intros H; try discriminate H; eexists; split; reflexivity.
Qed.

(** ** tree_flatten computes the pre-order leaves and the shape *)

Lemma preorder_leaves_children v :
  _is_leaf v = false →
  preorder_leaves v = concat (preorder_leaves <$> children v).
Proof.
  destruct v; intros H; try discriminate H; simpl; try reflexivity.
  by rewrite <-list_fmap_compose.
Qed.

Lemma shape_children v :
  _is_leaf v = false →
  shape v =
    TreeSpec_init (Some (type_of v)) (node_context v) (shape <$> children v).
Proof.
  destruct v; intros H; try discriminate H; simpl; try reflexivity.
  by rewrite <-list_fmap_compose.
Qed.

Lemma height_children v :
  Forall (λ child, height child < height v) (children v).
Proof.
  assert (Hmax : ∀ {A} (f : A → nat) (l : list A),
            Forall (λ a, f a < S (foldr (λ a n, f a `max` n) 0 l)) l).
  { intros A f l. induction l as [|a l IH]; constructor; simpl; [lia|].
    eapply Forall_impl; [exact IH|]. simpl. intros; lia. }
  destruct v as [a|xs|xs|items]; simpl.
  - constructor.
  - apply Hmax.
  - apply Hmax.
  - apply Forall_fmap. apply (Hmax _ (λ kv : key * pyval, height kv.2)).
Qed.

Lemma tree_flatten_loop_ok rec child_pytrees :
  Forall (λ child, rec child = Ok (preorder_leaves child, shape child))
    child_pytrees →
  ∀ result children_specs,
    tree_flatten_loop rec child_pytrees result children_specs =
      Ok (result ++ concat (preorder_leaves <$> child_pytrees),
          children_specs ++ (shape <$> child_pytrees)).
Proof.
  induction 1 as [|child rest Hchild _ IH]; intros result children_specs; simpl.
  - by rewrite !app_nil_r.
  - rewrite Hchild. simpl. rewrite IH. by rewrite <-!app_assoc.
Qed.

Lemma tree_flatten_limit_S limit pytree :
  tree_flatten_limit (S limit) pytree =
    if _is_leaf pytree then Ok ([pytree], LeafSpec_init)
    else
      nd ← SUPPORTED_NODES_getitem (Some (type_of pytree));
      '(child_pytrees, context) ← flatten_fn nd pytree;
      '(result, children_specs) ←
        tree_flatten_loop (tree_flatten_limit limit) child_pytrees [] [];
      Ok (result, TreeSpec_init (Some (type_of pytree)) context children_specs).
Proof. reflexivity. Qed.

Lemma tree_flatten_limit_ok v :
  ∀ limit, height v < limit →
    tree_flatten_limit limit v = Ok (preorder_leaves v, shape v).
Proof.
  induction v as [v IH] using pyval_children_ind.
  intros [|limit] Hlimit; [lia|]. rewrite tree_flatten_limit_S.
  destruct (_is_leaf v) eqn:Hleaf.
  { apply _is_leaf_true in Hleaf as [a ->]. reflexivity. }
  destruct (getitem_registered v Hleaf) as (nd & -> & Hflat). simpl.
  rewrite Hflat. simpl.
  rewrite (tree_flatten_loop_ok _ (children v)).
  - simpl. rewrite preorder_leaves_children, shape_children by done.
    destruct v; try discriminate Hleaf; reflexivity.
  - pose proof (height_children v) as Hh.
    rewrite Forall_forall in IH, Hh. apply Forall_forall.
    intros child Hin. apply IH; [done|]. specialize (Hh _ Hin). lia.
Qed.

Lemma tree_flatten_eq v : tree_flatten v = Ok (preorder_leaves v, shape v).
Proof. apply tree_flatten_limit_ok. lia. Qed.

(** A larger budget does not change the outcome. *)
Lemma tree_flatten_limit_enough v limit :
  height v < limit → tree_flatten_limit limit v = tree_flatten v.
Proof. intros H. by rewrite tree_flatten_limit_ok, tree_flatten_eq. Qed.

(** ** Leaf counts *)

Lemma constructed_shape v : constructed (shape v).
Proof.
  induction v as [v IH] using pyval_children_ind.
  destruct (_is_leaf v) eqn:Hleaf.
  { apply _is_leaf_true in Hleaf as [a ->]. constructor. }
  rewrite shape_children by done. constructor. by apply Forall_fmap.
Qed.

Lemma constructed_inv s :
  constructed s →
  s = LeafSpec_init
  ∨ (s = TreeSpec_init (type s) (context s) (children_specs s)
     ∧ Forall constructed (children_specs s)).
Proof. destruct 1; [by left|by right]. Qed.

Lemma constructed_count_LeafSpec s :
  constructed s → num_leaves s = count_LeafSpec s.
Proof.
  induction s as [s IH] using TreeSpec_children_ind.
  intros [->|[Hs Hcs]]%constructed_inv; [reflexivity|].
  rewrite Hs. simpl. f_equal.
  clear Hs. induction Hcs as [|c cs Hc Hcs IHcs]; [done|].
  apply Forall_cons in IH as [IHc IH]. simpl.
  rewrite (IHc Hc). f_equal. by apply IHcs.
Qed.

Lemma length_preorder_leaves v :
  length (preorder_leaves v) = num_leaves (shape v).
Proof.
  induction v as [v IH] using pyval_children_ind.
  destruct (_is_leaf v) eqn:Hleaf.
  { apply _is_leaf_true in Hleaf as [a ->]. reflexivity. }
  rewrite preorder_leaves_children, shape_children by done. simpl.
  induction IH as [|c cs Hc _ IHcs]; [done|].
  simpl. rewrite length_app, Hc. by f_equal.
Qed.

(** ** tree_unflatten *)

Lemma tree_unflatten_spec_eq values spec :
  tree_unflatten_spec values spec =
    if bool_decide (length values ≠ num_leaves spec) then
      (0, raise_length_mismatch values spec)
    else if is_LeafSpec spec then
      match values with
      | v :: _ => (1, Ok v)
      | [] => (0, Raise IndexError)
      end
    else
      match SUPPORTED_NODES_getitem (type spec) with
      | Raise e => (0, Raise e)
      | Ok nd =>
          match
            tree_unflatten_loop tree_unflatten_spec values
              (children_specs spec) 0 0 [] 0
          with
          | (n, Raise e) => (n, Raise e)
          | (n, Ok child_pytrees) =>
              match unflatten_fn nd child_pytrees (context spec) with
              | Ok pytree => (S n, Ok pytree)
              | Raise e => (n, Raise e)
              end
          end
      end.
Proof. destruct spec; reflexivity. Qed.

Lemma slice_middle (pre mid suf : list pyval) n :
  n = length mid →
  slice (pre ++ mid ++ suf) (length pre) (length pre + n) = mid.
Proof.
  intros ->. unfold slice.
  replace (length pre + length mid - length pre) with (length mid) by lia.
  by rewrite drop_app_length, take_app_length.
Qed.

Lemma dict_setitem_fresh (d : list (key * pyval)) k v :
  k ∉ d.*1 → dict_setitem d k v = d ++ [(k, v)].
Proof.
  induction d as [|[k' v'] d IH]; simpl; [done|].
  intros Hk. apply not_elem_of_cons in Hk as [Hne Hk].
  destruct (decide (k' = k)) as [->|_]; [done|]. by rewrite IH.
Qed.

Lemma dict_of_items_nodup (ks : list key) :
  ∀ (vs : list pyval) (d : list (key * pyval)),
    NoDup (d.*1 ++ ks) → length ks = length vs →
    foldl (λ d kv, dict_setitem d kv.1 kv.2) d (zip ks vs) = d ++ zip ks vs.
Proof.
  induction ks as [|k ks IH]; intros vs d Hnd Hlen; simpl.
  { by rewrite app_nil_r. }
  destruct vs as [|v vs]; [discriminate Hlen|]. simpl.
  rewrite dict_setitem_fresh.
  - rewrite IH.
    + by rewrite <-app_assoc.
    + rewrite fmap_app. simpl. by rewrite <-app_assoc.
    + by injection Hlen.
  - apply NoDup_app in Hnd as (_ & Hdisj & _).
    intros Hin. apply (Hdisj _ Hin). left.
Qed.

Lemma _dict_unflatten_items (items : list (key * pyval)) :
  NoDup items.*1 →
  _dict_unflatten items.*2 (CKeys items.*1) = Ok (PDict items).
Proof.
  intros Hnd. unfold _dict_unflatten.
  rewrite dict_of_items_nodup; [|done|by rewrite !length_fmap].
  simpl. by rewrite zip_fst_snd.
Qed.

Lemma tree_unflatten_loop_shape rec (xs : list pyval) :
  Forall (λ x, (rec (preorder_leaves x) (shape x)).2 = Ok x) xs →
  ∀ pre suf child_pytrees built,
    (tree_unflatten_loop rec (pre ++ concat (preorder_leaves <$> xs) ++ suf)
       (shape <$> xs) (length pre) (length pre) child_pytrees built).2
    = Ok (child_pytrees ++ xs).
Proof.
  induction 1 as [|x xs Hx _ IH]; intros pre suf child_pytrees built; simpl.
  { by rewrite app_nil_r. }
  rewrite <-(app_assoc (preorder_leaves x)).
  rewrite slice_middle by (symmetry; apply length_preorder_leaves).
  destruct (rec (preorder_leaves x) (shape x)) as [n r]. simpl in Hx. subst r.
  rewrite <-length_preorder_leaves, <-length_app.
  rewrite (app_assoc pre), IH. by rewrite <-app_assoc.
Qed.

Lemma forallb_Forall {A} (f : A → bool) (l : list A) :
  forallb f l = true ↔ Forall (λ a, f a = true) l.
Proof.
  induction l as [|a l IH]; simpl.
  - split; [constructor|done].
  - rewrite andb_true_iff, Forall_cons, IH. done.
Qed.

Lemma py_wf_children v :
  py_wf v = true → Forall (λ child, py_wf child = true) (children v).
Proof.
  destruct v as [a|xs|xs|items]; simpl; intros H.
  - constructor.
  - by apply forallb_Forall.
  - by apply forallb_Forall.
  - apply andb_true_iff in H as [_ H]. apply forallb_Forall in H.
    by apply Forall_fmap.
Qed.

Lemma tree_unflatten_spec_shape v :
  py_wf v = true →
  (tree_unflatten_spec (preorder_leaves v) (shape v)).2 = Ok v.
Proof.
  induction v as [v IH] using pyval_children_ind. intros Hwf.
  rewrite tree_unflatten_spec_eq.
  rewrite bool_decide_false by (rewrite length_preorder_leaves; auto).
  destruct (_is_leaf v) eqn:Hleaf.
  { apply _is_leaf_true in Hleaf as [a ->]. reflexivity. }
  assert (Hloop :
    (tree_unflatten_loop tree_unflatten_spec (preorder_leaves v)
       (shape <$> children v) 0 0 [] 0).2 = Ok (children v)).
  { rewrite preorder_leaves_children by done.
    pose proof (tree_unflatten_loop_shape tree_unflatten_spec (children v))
      as Hl.
    specialize (Hl ltac:(
      apply py_wf_children in Hwf; rewrite Forall_forall in IH, Hwf;
      apply Forall_forall; intros x Hx; apply IH; auto) [] [] [] 0).
    simpl in Hl. by rewrite app_nil_r in Hl. }
  rewrite shape_children by done. simpl.
  destruct (tree_unflatten_loop _ _ _ _ _ _ _) as [n r]. simpl in Hloop.
  subst r.
  destruct v as [a|xs|xs|items]; try discriminate Hleaf; simpl.
  - by rewrite getitem_list.
  - by rewrite getitem_tuple.
  - simpl in Hwf. apply andb_true_iff in Hwf as [Hnd _].
    apply bool_decide_eq_true in Hnd.
    rewrite getitem_dict. cbn [unflatten_fn]. by rewrite _dict_unflatten_items.
Qed.

(** ** Specs compatible with a decomposition are the shapes of values *)

Lemma compatible_with_decomposition_eq spec :
  compatible_with_decomposition spec =
    if is_LeafSpec spec then
      bool_decide (type spec = None) && bool_decide (context spec = CNone)
      && bool_decide (length (children_specs spec) = 0)
      && bool_decide (num_leaves spec = 1)
    else
      context_fits (type spec) (context spec) (length (children_specs spec))
      && bool_decide
           (num_leaves spec = sum_list (num_leaves <$> children_specs spec))
      && forallb compatible_with_decomposition (children_specs spec).
Proof. destruct spec; reflexivity. Qed.

Lemma py_wf_container v :
  _is_leaf v = false →
  (match v with PDict items => NoDup items.*1 | _ => True end) →
  Forall (λ child, py_wf child = true) (children v) →
  py_wf v = true.
Proof.
  destruct v as [a|xs|xs|items]; intros Hleaf Hnd Hch; try discriminate Hleaf;
    simpl in *.
  - by apply forallb_Forall.
  - by apply forallb_Forall.
  - apply andb_true_iff. split; [by apply bool_decide_eq_true|].
    apply forallb_Forall. by apply Forall_fmap in Hch.
Qed.

Lemma context_fits_shape v :
  _is_leaf v = false → py_wf v = true →
  context_fits (Some (type_of v)) (node_context v) (length (children v)) = true.
Proof.
  destruct v as [a|xs|xs|items]; intros Hleaf Hwf; try discriminate Hleaf;
    simpl in *; try done.
  apply andb_true_iff in Hwf as [Hnd _]. rewrite Hnd. simpl.
  apply bool_decide_eq_true. by rewrite !length_fmap.
Qed.

Lemma compatible_shape v :
  py_wf v = true → compatible_with_decomposition (shape v) = true.
Proof.
  induction v as [v IH] using pyval_children_ind. intros Hwf.
  destruct (_is_leaf v) eqn:Hleaf.
  { apply _is_leaf_true in Hleaf as [a ->]. reflexivity. }
  rewrite shape_children by done.
  rewrite compatible_with_decomposition_eq.
  cbn [TreeSpec_init is_LeafSpec type context children_specs num_leaves].
  rewrite length_fmap, context_fits_shape by done.
  rewrite bool_decide_true by done. simpl.
  apply forallb_Forall, Forall_fmap.
  apply py_wf_children in Hwf. rewrite Forall_forall in IH, Hwf.
  apply Forall_forall. intros x Hx. apply IH; auto.
Qed.

Lemma realise_children (cs : list TreeSpec) :
  Forall (λ s, compatible_with_decomposition s = true →
            ∀ values, Forall (λ x, _is_leaf x = true) values →
              length values = num_leaves s →
              ∃ x, py_wf x = true ∧ preorder_leaves x = values ∧ shape x = s)
    cs →
  forallb compatible_with_decomposition cs = true →
  ∀ values, Forall (λ x, _is_leaf x = true) values →
    length values = sum_list (num_leaves <$> cs) →
    ∃ xs, Forall (λ x, py_wf x = true) xs
          ∧ concat (preorder_leaves <$> xs) = values
          ∧ shape <$> xs = cs.
Proof.
  induction 1 as [|s cs Hs _ IH]; intros Hcompat values Hleaves Hlen.
  { exists []. apply nil_length_inv in Hlen. by subst. }
  change (length values = num_leaves s + sum_list (num_leaves <$> cs)) in Hlen.
  apply andb_true_iff in Hcompat as [Hc Hcs].
  destruct (Hs Hc (take (num_leaves s) values)) as (x & Hx1 & Hx2 & Hx3).
  { by apply Forall_take. }
  { rewrite length_take. apply Nat.min_l. lia. }
  destruct (IH Hcs (drop (num_leaves s) values)) as (xs & Hxs1 & Hxs2 & Hxs3).
  { by apply Forall_drop. }
  { rewrite length_drop. lia. }
  exists (x :: xs). split; [by constructor|].
  rewrite !fmap_cons. cbn [concat].
  rewrite Hx2, Hxs2, Hx3, Hxs3. by rewrite take_drop.
Qed.

Lemma realise spec :
  compatible_with_decomposition spec = true →
  ∀ values, Forall (λ x, _is_leaf x = true) values →
    length values = num_leaves spec →
    ∃ x, py_wf x = true ∧ preorder_leaves x = values ∧ shape x = spec.
Proof.
  induction spec as [spec IH] using TreeSpec_children_ind.
  intros Hcompat values Hleaves Hlen.
  rewrite compatible_with_decomposition_eq in Hcompat.
  destruct spec as [lf typ ctx cs n]; simpl in *. destruct lf.
  - repeat (apply andb_true_iff in Hcompat as [Hcompat ?]).
    repeat match goal with
           | H : bool_decide _ = true |- _ => apply bool_decide_eq_true in H
           end.
    subst. destruct cs; [|done].
    destruct values as [|x [|? ?]]; try discriminate Hlen.
    apply Forall_cons in Hleaves as [Hx _].
    apply _is_leaf_true in Hx as [a ->].
    by exists (PLeaf a).
  - apply andb_true_iff in Hcompat as [[Hfits Hn]%andb_true_iff Hcs].
    apply bool_decide_eq_true in Hn. subst n.
    destruct (realise_children cs IH Hcs values Hleaves Hlen)
      as (xs & Hwf & Hpre & Hshape).
    assert (Hbuild : ∀ x, _is_leaf x = false → children x = xs →
              (match x with PDict items => NoDup items.*1 | _ => True end) →
              typ = Some (type_of x) → ctx = node_context x →
              ∃ x, py_wf x = true ∧ preorder_leaves x = values
                   ∧ shape x = MkTreeSpec false typ ctx cs
                                 (sum_list (num_leaves <$> cs))).
    { intros x Hleaf Hch Hnd -> ->. exists x. split; [|split].
      - apply py_wf_container; [done..|]. by rewrite Hch.
      - by rewrite preorder_leaves_children, Hch.
      - by rewrite shape_children, Hch, Hshape. }
    unfold context_fits in Hfits.
    destruct typ as [[]|]; destruct ctx as [|ks]; try discriminate Hfits.
    + apply andb_true_iff in Hfits as [Hnd Hks].
      apply bool_decide_eq_true in Hnd, Hks.
      assert (length ks = length xs) as Hlenxs.
      { by rewrite Hks, <-Hshape, length_fmap. }
      apply (Hbuild (PDict (zip ks xs))); simpl; try done.
      * apply snd_zip. lia.
      * rewrite fst_zip; [done|lia].
      * rewrite fst_zip; [done|lia].
    + by apply (Hbuild (PList xs)).
    + by apply (Hbuild (PTuple xs)).
Qed.

(** ** Rendering a spec *)

Lemma TreeSpec_repr_eq self :
  TreeSpec_repr self =
    if is_LeafSpec self then Ok "*"
    else
      name ← match type self with
             | Some t => Ok (type_name t)
             | None => Raise AttributeError
             end;
      children ← repr_elements TreeSpec_repr (children_specs self);
      Ok ("TreeSpec(" +:+ name +:+ ", "
          +:+ Context_repr (context self)
          +:+ ", [" +:+ join_comma children +:+ "])").
Proof. destruct self; reflexivity. Qed.

Lemma renderable_eq spec :
  renderable spec =
    is_LeafSpec spec
    || (bool_decide (type spec ≠ None)
        && forallb renderable (children_specs spec)).
Proof. destruct spec; reflexivity. Qed.

Lemma repr_elements_cases {A} (f : A → pyresult string) (P : A → bool)
    (e : error) (l : list A) :
  Forall (λ a, if P a then ∃ str, f a = Ok str else f a = Raise e) l →
  if forallb P l then ∃ parts, repr_elements f l = Ok parts
  else repr_elements f l = Raise e.
Proof.
  induction 1 as [|a l Ha _ IH]; simpl; [by eexists|].
  destruct (P a); simpl.
  - destruct Ha as [str ->]. simpl.
    destruct (forallb P l); [|by rewrite IH].
    destruct IH as [parts ->]. by eexists.
  - by rewrite Ha.
Qed.

Lemma TreeSpec_repr_cases spec :
  if renderable spec then ∃ str, TreeSpec_repr spec = Ok str
  else TreeSpec_repr spec = Raise AttributeError.
Proof.
  induction spec as [spec IH] using TreeSpec_children_ind.
  rewrite renderable_eq, TreeSpec_repr_eq.
  destruct (is_LeafSpec spec); simpl; [by eexists|].
  destruct (type spec) as [t|]; simpl; [|done].
  pose proof (repr_elements_cases TreeSpec_repr renderable AttributeError
                (children_specs spec) IH) as Hch.
  destruct (forallb renderable (children_specs spec)).
  - destruct Hch as [parts ->]. by eexists.
  - by rewrite Hch.
Qed.

Lemma renderable_shape v : renderable (shape v) = true.
Proof.
  induction v as [v IH] using pyval_children_ind.
  destruct (_is_leaf v) eqn:Hleaf.
  { apply _is_leaf_true in Hleaf as [a ->]. reflexivity. }
  rewrite shape_children, renderable_eq by done.
  cbn [TreeSpec_init is_LeafSpec type context children_specs num_leaves].
  rewrite bool_decide_true by done. simpl.
  by apply forallb_Forall, Forall_fmap.
Qed.

Lemma raise_length_mismatch_cases values spec :
  raise_length_mismatch values spec =
    if renderable spec
    then Raise (LeafCountMismatch (length values) (num_leaves spec))
    else Raise AttributeError.
Proof.
  unfold raise_length_mismatch. pose proof (TreeSpec_repr_cases spec) as H.
  destruct (renderable spec); [by destruct H as [str ->]|by rewrite H].
Qed.

Lemma raise_length_mismatch_not_Ok values spec x :
  raise_length_mismatch values spec ≠ Ok x.
Proof. rewrite raise_length_mismatch_cases. by destruct (renderable spec). Qed.

(** ** Which exceptions tree_unflatten raises, and when it returns *)

Lemma length_slice values start n :
  start + n ≤ length values → length (slice values start (start + n)) = n.
Proof.
  intros H. unfold slice. rewrite length_take, length_drop.
  replace (start + n - start) with n by lia. apply Nat.min_l. lia.
Qed.

(** An exception leaving the loop was raised by one of the recursive calls.
    With [strict], the calls are known to receive as many values as their
    spec holds leaves. *)
Lemma tree_unflatten_loop_raise (strict : Prop) (Q : error → Prop) rec values
    (specs : list TreeSpec) :
  Forall (λ s, ∀ vs n e, (strict → length vs = num_leaves s) →
            rec vs s = (n, Raise e) → Q e) specs →
  ∀ start child_pytrees built n e,
    (strict → start + sum_list (num_leaves <$> specs) ≤ length values) →
    tree_unflatten_loop rec values specs start start child_pytrees built
      = (n, Raise e) →
    Q e.
Proof.
  induction 1 as [|s specs Hs _ IH];
    intros start child_pytrees built n e Hlen Hloop.
  { discriminate Hloop. }
  change (strict → start + (num_leaves s + sum_list (num_leaves <$> specs))
                   ≤ length values) in Hlen.
  cbn [tree_unflatten_loop] in Hloop.
  destruct (rec (slice values start (start + num_leaves s)) s) as [m [x|e']]
    eqn:Hrec.
  - eapply IH; [|exact Hloop]. intros Hstrict. specialize (Hlen Hstrict). lia.
  - injection Hloop as _ <-. eapply Hs; [|exact Hrec].
    intros Hstrict. apply length_slice. specialize (Hlen Hstrict). lia.
Qed.

Lemma tree_unflatten_loop_return rec values (specs : list TreeSpec) :
  Forall (λ s, ∀ vs, length vs = num_leaves s → ∃ n x, rec vs s = (n, Ok x))
    specs →
  ∀ start child_pytrees built,
    start + sum_list (num_leaves <$> specs) ≤ length values →
    ∃ n xs,
      tree_unflatten_loop rec values specs start start child_pytrees built
      = (n, Ok xs).
Proof.
  induction 1 as [|s specs Hs _ IH]; intros start child_pytrees built Hlen.
  { by eexists _, _. }
  change (start + (num_leaves s + sum_list (num_leaves <$> specs))
          ≤ length values) in Hlen.
  cbn [tree_unflatten_loop].
  destruct (Hs (slice values start (start + num_leaves s))) as (m & x & ->).
  { apply length_slice. lia. }
  apply IH. lia.
Qed.

(** Closes a goal whose hypothesis [H] says that the count mismatch branch
    gave something it never gives. *)
Ltac mismatch_branch H :=
  rewrite raise_length_mismatch_cases in H;
  destruct (renderable _); discriminate H.

(** [tree_unflatten_spec] never raises the "not a TreeSpec" error. *)
Lemma tree_unflatten_spec_not_InvalidSpecKind spec :
  ∀ values n, tree_unflatten_spec values spec ≠ (n, Raise InvalidSpecKind).
Proof.
  induction spec as [spec IH] using TreeSpec_children_ind.
  intros values n Heq. rewrite tree_unflatten_spec_eq in Heq.
  case_bool_decide; [mismatch_branch Heq|].
  destruct (is_LeafSpec spec).
  { destruct values; discriminate Heq. }
  destruct (SUPPORTED_NODES_getitem (type spec)) as [nd|e] eqn:Hget.
  2:{ destruct (type spec) as [[]|]; try discriminate Hget;
        injection Hget as <-; discriminate Heq. }
  destruct (tree_unflatten_loop _ _ _ _ _ _ _) as [m [xs|e]] eqn:Hloop.
  - destruct (type spec) as [[]|]; try discriminate Hget;
      injection Hget as <-; simpl in Heq; try discriminate Heq.
    destruct (context spec); discriminate Heq.
  - injection Heq as _ ->.
    eapply (tree_unflatten_loop_raise False (λ e, e ≠ InvalidSpecKind));
      [| |exact Hloop|reflexivity]; [|done].
    eapply Forall_impl; [exact IH|]. simpl.
    intros s Hs vs k e _ Hrec ->. by eapply Hs.
Qed.

(** On a constructed spec holding as many leaves as there are values, the
    only exceptions are those of the registry lookup and of [unflatten_fn]. *)
Lemma tree_unflatten_spec_raise spec :
  constructed spec →
  ∀ values n e, length values = num_leaves spec →
    tree_unflatten_spec values spec = (n, Raise e) →
    e = KeyError ∨ e = TypeError.
Proof.
  induction spec as [spec IH] using TreeSpec_children_ind.
  intros Hc values n e Hlen Heq. rewrite tree_unflatten_spec_eq in Heq.
  rewrite bool_decide_false in Heq by auto.
  apply constructed_inv in Hc as [->|[Hspec Hcs]].
  { destruct values; [discriminate Hlen|discriminate Heq]. }
  rewrite Hspec in Heq, Hlen.
  cbn [TreeSpec_init is_LeafSpec type context children_specs num_leaves]
    in Heq, Hlen.
  destruct (SUPPORTED_NODES_getitem (type spec)) as [nd|e'] eqn:Hget.
  2:{ destruct (type spec) as [[]|]; try discriminate Hget;
        injection Hget as <-; injection Heq as _ <-; by left. }
  destruct (tree_unflatten_loop _ _ _ _ _ _ _) as [m [xs|e']] eqn:Hloop.
  - destruct (type spec) as [[]|]; try discriminate Hget;
      injection Hget as <-; simpl in Heq; try discriminate Heq.
    destruct (context spec); [|discriminate Heq].
    injection Heq as _ <-. by right.
  - injection Heq as _ <-.
    eapply (tree_unflatten_loop_raise True
              (λ e, e = KeyError ∨ e = TypeError));
      [| |exact Hloop]; [|simpl; lia].
    rewrite Forall_forall in IH, Hcs. apply Forall_forall.
    intros s Hs vs k e Hvs Hrec. eapply IH; eauto.
Qed.

Lemma recomposable_eq spec :
  recomposable spec =
    is_LeafSpec spec
    || (match type spec, context spec with
        | Some Tdict, CKeys _ => true
        | Some Tlist, _ => true
        | Some Ttuple, _ => true
        | _, _ => false
        end
        && forallb recomposable (children_specs spec)).
Proof. destruct spec; reflexivity. Qed.

Lemma tree_unflatten_spec_return spec :
  constructed spec → recomposable spec = true →
  ∀ values, length values = num_leaves spec →
    ∃ n x, tree_unflatten_spec values spec = (n, Ok x).
Proof.
  induction spec as [spec IH] using TreeSpec_children_ind.
  intros Hc Hr values Hlen. rewrite tree_unflatten_spec_eq.
  rewrite bool_decide_false by auto.
  apply constructed_inv in Hc as [->|[Hspec Hcs]].
  { destruct values; [discriminate Hlen|]. by eexists _, _. }
  rewrite recomposable_eq in Hr. rewrite Hspec in Hr, Hlen |- *.
  cbn [TreeSpec_init is_LeafSpec type context children_specs num_leaves]
    in Hr, Hlen |- *.
  apply andb_true_iff in Hr as [Htyp Hrs]. apply forallb_Forall in Hrs.
  destruct (tree_unflatten_loop_return tree_unflatten_spec values
              (children_specs spec)) with (start := 0) (child_pytrees := @nil pyval)
              (built := 0) as (m & xs & ->).
  { rewrite Forall_forall in IH, Hcs, Hrs. apply Forall_forall.
    intros s Hs vs Hvs. apply IH; auto. }
  { simpl. lia. }
  destruct (type spec) as [[]|]; try discriminate Htyp.
  - destruct (context spec); [discriminate Htyp|].
    rewrite getitem_dict. by eexists _, _.
  - rewrite getitem_list. by eexists _, _.
  - rewrite getitem_tuple. by eexists _, _.
Qed.

Lemma tree_unflatten_loop_return_inv rec values (specs : list TreeSpec) :
  ∀ start child_pytrees built n xs,
    start + sum_list (num_leaves <$> specs) ≤ length values →
    tree_unflatten_loop rec values specs start start child_pytrees built
      = (n, Ok xs) →
    Forall (λ s, ∃ vs m x, length vs = num_leaves s ∧ rec vs s = (m, Ok x))
      specs.
Proof.
  induction specs as [|s specs IH];
    intros start child_pytrees built n xs Hlen Hloop; [constructor|].
  change (start + (num_leaves s + sum_list (num_leaves <$> specs))
          ≤ length values) in Hlen.
  cbn [tree_unflatten_loop] in Hloop.
  destruct (rec (slice values start (start + num_leaves s)) s) as [m [x|e]]
    eqn:Hrec; [|discriminate Hloop].
  constructor.
  - exists (slice values start (start + num_leaves s)), m, x.
    split; [apply length_slice; lia|done].
  - eapply IH; [|exact Hloop]. lia.
Qed.

(** Conversely, a spec against which some list of the right length can be
    unflattened is recomposable. *)
Lemma tree_unflatten_spec_return_inv spec :
  constructed spec →
  ∀ values n x, length values = num_leaves spec →
    tree_unflatten_spec values spec = (n, Ok x) →
    recomposable spec = true.
Proof.
  induction spec as [spec IH] using TreeSpec_children_ind.
  intros Hc values n x Hlen Heq. rewrite recomposable_eq.
  rewrite tree_unflatten_spec_eq in Heq.
  rewrite bool_decide_false in Heq by auto.
  apply constructed_inv in Hc as [->|[Hspec Hcs]]; [done|].
  rewrite Hspec in Heq, Hlen |- *.
  cbn [TreeSpec_init is_LeafSpec type context children_specs num_leaves]
    in Heq, Hlen |- *.
  destruct (SUPPORTED_NODES_getitem (type spec)) as [nd|e] eqn:Hget;
    [|discriminate Heq].
  destruct (tree_unflatten_loop _ _ _ _ _ _ _) as [m [xs|e]] eqn:Hloop;
    [|discriminate Heq].
  apply tree_unflatten_loop_return_inv in Hloop; [|simpl; lia].
  assert (forallb recomposable (children_specs spec) = true) as ->.
  { apply forallb_Forall. rewrite Forall_forall in IH, Hcs, Hloop.
    apply Forall_forall. intros s Hs.
    destruct (Hloop s Hs) as (vs & k & y & Hvs & Hy). eapply IH; eauto. }
  rewrite andb_true_r.
  destruct (type spec) as [[]|]; try discriminate Hget; try done.
  injection Hget as <-. by destruct (context spec).
Qed.

Lemma compatible_constructed spec :
  compatible_with_decomposition spec = true → constructed spec.
Proof.
  induction spec as [spec IH] using TreeSpec_children_ind. intros Hc.
  rewrite compatible_with_decomposition_eq in Hc.
  destruct spec as [lf typ ctx cs n]; simpl in *. destruct lf.
  - repeat (apply andb_true_iff in Hc as [Hc ?]).
    repeat match goal with
           | H : bool_decide _ = true |- _ => apply bool_decide_eq_true in H
           end.
    subst. destruct cs; [|done]. constructor.
  - apply andb_true_iff in Hc as [[_ Hn]%andb_true_iff Hcs].
    apply bool_decide_eq_true in Hn. subst n.
    apply (constructed_node typ ctx cs).
    apply forallb_Forall in Hcs.
    rewrite Forall_forall in IH, Hcs. apply Forall_forall. auto.
Qed.

(** ** TreeSpec.__eq__ *)

Lemma TreeSpec_eq_eq self other :
  TreeSpec_eq self other =
    bool_decide (type self = type other)
    && bool_decide (context self = context other)
    && list_eq TreeSpec_eq (children_specs self) (children_specs other)
    && bool_decide (num_leaves self = num_leaves other).
Proof. destruct self; reflexivity. Qed.

Lemma structurally_equal_eq s1 s2 :
  structurally_equal s1 s2 =
    bool_decide (is_LeafSpec s1 = is_LeafSpec s2)
    && bool_decide (type s1 = type s2)
    && bool_decide (context s1 = context s2)
    && list_eq structurally_equal (children_specs s1) (children_specs s2).
Proof. destruct s1; reflexivity. Qed.

Lemma list_eq_Forall2 {A} (eq : A → A → bool) (l1 l2 : list A) :
  list_eq eq l1 l2 = true ↔ Forall2 (λ a b, eq a b = true) l1 l2.
Proof.
  revert l2. induction l1 as [|a l1 IH]; intros [|b l2]; simpl.
  - split; [constructor|done].
  - split; [done|inversion 1].
  - split; [done|inversion 1].
  - rewrite andb_true_iff, IH. split.
    + intros [? ?]. by constructor.
    + inversion 1; subst. done.
Qed.

Lemma list_eq_ext {A} (P : A → Prop) (f g : A → A → bool) (l1 l2 : list A) :
  Forall (λ a, ∀ b, P b → f a b = g a b) l1 → Forall P l2 →
  list_eq f l1 l2 = list_eq g l1 l2.
Proof.
  intros H. revert l2.
  induction H as [|a l1 Ha _ IH]; intros [|b l2] Hl2; simpl; try done.
  apply Forall_cons in Hl2 as [Hb Hl2]. by rewrite Ha, IH.
Qed.

Lemma TreeSpec_eq_num_leaves s1 s2 :
  TreeSpec_eq s1 s2 = true → num_leaves s1 = num_leaves s2.
Proof.
  rewrite TreeSpec_eq_eq. intros [_ H]%andb_true_iff.
  by apply bool_decide_eq_true in H.
Qed.

Lemma list_eq_sum_num_leaves (cs1 cs2 : list TreeSpec) :
  list_eq TreeSpec_eq cs1 cs2 = true →
  sum_list (num_leaves <$> cs1) = sum_list (num_leaves <$> cs2).
Proof.
  rewrite list_eq_Forall2. induction 1 as [|c1 c2 cs1 cs2 Hc _ IH]; [done|].
  rewrite !fmap_cons. cbn [sum_list sum_list_with id].
  by rewrite (TreeSpec_eq_num_leaves _ _ Hc), IH.
Qed.

(** On constructed specs [__eq__] decides structural equality: comparing
    [num_leaves] tells a [LeafSpec] from a childless node. *)
Lemma TreeSpec_eq_structural s1 :
  ∀ s2, constructed s1 → constructed s2 →
    TreeSpec_eq s1 s2 = structurally_equal s1 s2.
Proof.
  induction s1 as [s1 IH] using TreeSpec_children_ind. intros s2 H1 H2.
  rewrite TreeSpec_eq_eq, structurally_equal_eq.
  apply constructed_inv in H1 as [->|[Hs1 Hcs1]];
    apply constructed_inv in H2 as [->|[Hs2 Hcs2]].
  - reflexivity.
  - rewrite Hs2.
    cbn [LeafSpec_init TreeSpec_init is_LeafSpec type context children_specs
         num_leaves].
    rewrite (bool_decide_false (true = false)) by done.
    destruct (children_specs s2); simpl; by rewrite ?andb_false_r.
  - rewrite Hs1.
    cbn [LeafSpec_init TreeSpec_init is_LeafSpec type context children_specs
         num_leaves].
    rewrite (bool_decide_false (false = true)) by done.
    destruct (children_specs s1); simpl; by rewrite ?andb_false_r.
  - assert (Hch : list_eq TreeSpec_eq (children_specs s1) (children_specs s2)
                  = list_eq structurally_equal (children_specs s1)
                      (children_specs s2)).
    { apply (list_eq_ext constructed); [|done].
      rewrite Forall_forall in IH, Hcs1. apply Forall_forall.
      intros c Hc b Hb. apply IH; auto. }
    rewrite <-Hch.
    destruct (list_eq TreeSpec_eq (children_specs s1) (children_specs s2))
      eqn:Hl.
    + apply list_eq_sum_num_leaves in Hl.
      rewrite Hs1, Hs2.
      cbn [TreeSpec_init is_LeafSpec type context children_specs num_leaves].
      rewrite (bool_decide_true (false = false)) by done.
      rewrite (bool_decide_true (sum_list _ = _)) by done.
      by rewrite andb_true_r.
    + by rewrite !andb_false_r.
Qed.

Lemma TreeSpec_eq_refl s : TreeSpec_eq s s = true.
Proof.
  induction s as [s IH] using TreeSpec_children_ind.
  rewrite TreeSpec_eq_eq, !bool_decide_true by done. simpl.
  rewrite andb_true_r. apply list_eq_Forall2.
  induction IH; by constructor.
Qed.

Lemma Forall2_TreeSpec_eq (cs1 cs2 : list TreeSpec) :
  Forall2 (λ c1 c2, TreeSpec_eq c1 c2 = true) cs1 cs2 →
  Forall (λ c1, ∀ c2, constructed c1 → constructed c2 →
            TreeSpec_eq c1 c2 = true → c1 = c2) cs1 →
  Forall constructed cs1 → Forall constructed cs2 →
  cs1 = cs2.
Proof.
  induction 1 as [|c1 c2 cs1 cs2 Hc _ IH]; [done|].
  intros [IHc IHcs]%Forall_cons [? ?]%Forall_cons [? ?]%Forall_cons.
  f_equal; auto.
Qed.

Lemma constructed_children s :
  constructed s → Forall constructed (children_specs s).
Proof. intros [->|[_ ?]]%constructed_inv; [constructor|done]. Qed.

(** ... and structural equality of constructed specs is equality. *)
Lemma TreeSpec_eq_true s1 :
  ∀ s2, constructed s1 → constructed s2 →
    TreeSpec_eq s1 s2 = true → s1 = s2.
Proof.
  induction s1 as [s1 IH] using TreeSpec_children_ind. intros s2 H1 H2 Heq.
  assert (Hst := Heq). rewrite TreeSpec_eq_structural in Hst by done.
  rewrite structurally_equal_eq in Hst. rewrite TreeSpec_eq_eq in Heq.
  apply andb_true_iff in Heq as [[[Ht Hc]%andb_true_iff Hl]%andb_true_iff Hn].
  apply andb_true_iff in Hst as [[[Hlf _]%andb_true_iff _]%andb_true_iff _].
  apply bool_decide_eq_true in Ht, Hc, Hn, Hlf.
  apply list_eq_Forall2 in Hl.
  apply Forall2_TreeSpec_eq in Hl; auto using constructed_children.
  destruct s1, s2; simpl in *; by subst.
Qed.

(** ** _broadcast_to_and_flatten *)

Lemma _broadcast_spec_eq pytree spec :
  _broadcast_spec pytree spec =
    if _is_leaf pytree then Ok (Some (replicate (num_leaves spec) pytree))
    else if is_LeafSpec spec then Ok None
    else if bool_decide (Some (type_of pytree) ≠ type spec) then Ok None
    else
      nd ← SUPPORTED_NODES_getitem (Some (type_of pytree));
      '(child_pytrees, ctx) ← flatten_fn nd pytree;
      if bool_decide (length child_pytrees ≠ length (children_specs spec))
         || bool_decide (ctx ≠ context spec)
      then Ok None
      else
        _broadcast_loop _broadcast_spec child_pytrees (children_specs spec) [].
Proof. destruct spec; reflexivity. Qed.

(** The loop either stops at a child that cannot be broadcast, or goes
    through all pairs and returns their results, concatenated in order. *)
Lemma _broadcast_loop_cases rec (specs : list TreeSpec) :
  Forall (λ s, ∀ c, ∃ r, rec c s = Ok r) specs →
  ∀ (cs : list pyval) result,
    (_broadcast_loop rec cs specs result = Ok None
     ∧ ∃ i c s, cs !! i = Some c ∧ specs !! i = Some s ∧ rec c s = Ok None)
    ∨ (∃ flats,
         _broadcast_loop rec cs specs result = Ok (Some (result ++ concat flats))
         ∧ Forall2 (λ p flat, rec p.1 p.2 = Ok (Some flat)) (zip cs specs) flats
         ∧ ∀ i c s, cs !! i = Some c → specs !! i = Some s →
             rec c s ≠ Ok None).
Proof.
  induction 1 as [|s specs Hs _ IH]; intros cs result.
  { right. exists []. destruct cs; simpl; rewrite app_nil_r;
      (split; [done|split; [constructor|]]); intros i ? ? _ Hi; done. }
  destruct cs as [|c cs].
  { right. exists []. simpl. rewrite app_nil_r.
    split; [done|split; [constructor|]]. intros i ? ? Hi; done. }
  cbn [_broadcast_loop]. destruct (Hs c) as [[flat|] Hc]; rewrite Hc; simpl.
  - destruct (IH cs (result ++ flat))
      as [[-> (i & c' & s' & ? & ? & ?)]|(flats & -> & HF & Hall)].
    + left. split; [done|]. by exists (S i), c', s'.
    + right. exists (flat :: flats). simpl. rewrite <-app_assoc.
      split; [done|split; [by constructor|]].
      intros [|i] c' s' Hci Hsi; simpl in *.
      * injection Hci as <-. injection Hsi as <-. by rewrite Hc.
      * by eapply Hall.
  - left. split; [done|]. by exists 0, c, s.
Qed.

Lemma _broadcast_loop_length rec (specs : list TreeSpec) :
  Forall (λ s, ∀ c flat, rec c s = Ok (Some flat) →
            length flat = num_leaves s) specs →
  ∀ (cs : list pyval) result out,
    length cs = length specs →
    _broadcast_loop rec cs specs result = Ok (Some out) →
    length out = length result + sum_list (num_leaves <$> specs).
Proof.
  induction 1 as [|s specs Hs _ IH]; intros cs result out Hlen Hloop.
  { destruct cs; [|discriminate Hlen]. injection Hloop as <-. simpl. lia. }
  destruct cs as [|c cs]; [discriminate Hlen|].
  cbn [_broadcast_loop] in Hloop.
  destruct (rec c s) as [[flat|]|e] eqn:Hc; try discriminate Hloop.
  simpl in Hloop. apply IH in Hloop; [|by injection Hlen].
  rewrite Hloop, length_app, (Hs _ _ Hc), fmap_cons.
  cbn [sum_list sum_list_with id]. lia.
Qed.

(** No exception below the [assert]. *)
Lemma _broadcast_spec_total spec :
  ∀ pytree, ∃ r, _broadcast_spec pytree spec = Ok r.
Proof.
  induction spec as [spec IH] using TreeSpec_children_ind. intros pytree.
  rewrite _broadcast_spec_eq.
  destruct (_is_leaf pytree) eqn:Hleaf; [by eexists|].
  destruct (is_LeafSpec spec); [by eexists|].
  case_bool_decide; [by eexists|].
  destruct (getitem_registered pytree Hleaf) as (nd & -> & Hflat). simpl.
  rewrite Hflat. simpl.
  destruct (_ || _); [by eexists|].
  destruct (_broadcast_loop_cases _broadcast_spec (children_specs spec) IH
              (children pytree) []) as [[-> _]|(flats & -> & _)]; by eexists.
Qed.

Lemma _broadcast_spec_length spec :
  constructed spec →
  ∀ pytree out, _broadcast_spec pytree spec = Ok (Some out) →
    length out = num_leaves spec.
Proof.
  induction spec as [spec IH] using TreeSpec_children_ind.
  intros Hc pytree out. rewrite _broadcast_spec_eq.
  destruct (_is_leaf pytree) eqn:Hleaf.
  { intros [= <-]. apply length_replicate. }
  destruct (is_LeafSpec spec) eqn:Hlf; [done|].
  case_bool_decide; [done|].
  destruct (getitem_registered pytree Hleaf) as (nd & -> & Hflat). simpl.
  rewrite Hflat. simpl.
  destruct (bool_decide (length (children pytree) ≠ _)) eqn:Hlen;
    [simpl; done|].
  apply bool_decide_eq_false in Hlen. apply dec_stable in Hlen.
  destruct (bool_decide _); simpl; [done|]. intros Hloop.
  apply constructed_inv in Hc as [->|[Hspec Hcs]]; [discriminate Hlf|].
  apply _broadcast_loop_length in Hloop; [|
    rewrite Forall_forall in IH, Hcs; apply Forall_forall;
    intros s Hs c flat; apply IH; auto|done].
  rewrite Hloop, Hspec. reflexivity.
Qed.

End properties.

(** * The claims *)

Section claims.
Context {atom key : Type} `{!EqDecision key} `{!Rendering key}.
#[local] Abbreviation pyval := (pyval atom key).
#[local] Abbreviation TreeSpec := (TreeSpec key).
#[local] Abbreviation pyobj := (pyobj atom key).

(** C1: unflattening what [tree_flatten] returns for a value built from
    dicts, lists, tuples and opaque leaves gives the value back. *)
Theorem tree_unflatten_tree_flatten (x : pyval) :
  py_wf x = true →
  ∃ leaves spec,
    tree_flatten x = Ok (leaves, spec)
    ∧ tree_unflatten leaves (OSpec spec) = Ok x.
Proof.
  intros Hwf. exists (preorder_leaves x), (shape x).
  split; [apply tree_flatten_eq|].
  unfold tree_unflatten, tree_unflatten_built.
  by apply tree_unflatten_spec_shape.
Qed.

(** C2, amended: when every element of [leaves] is a leaf (a value of an
    unregistered type), [len(leaves) == spec.num_leaves], and [spec] was
    produced by flattening a value or is structurally compatible with such a
    decomposition, flattening [tree_unflatten(leaves, spec)] returns exactly
    [(leaves, spec)]. *)
Theorem tree_flatten_tree_unflatten (leaves : list pyval) (spec : TreeSpec) :
  Forall (λ v, _is_leaf v = true) leaves →
  length leaves = num_leaves spec →
  (∃ (x : pyval) l, py_wf x = true ∧ tree_flatten x = Ok (l, spec))
  ∨ compatible_with_decomposition spec = true →
  ∃ x, tree_unflatten leaves (OSpec spec) = Ok x
       ∧ tree_flatten x = Ok (leaves, spec).
Proof.
  intros Hleaves Hlen Hspec.
  assert (compatible_with_decomposition spec = true) as Hcompat.
  { destruct Hspec as [(x & l & Hwf & Hx)|?]; [|done].
    rewrite tree_flatten_eq in Hx. injection Hx as _ <-.
    by apply compatible_shape. }
  destruct (realise spec Hcompat leaves Hleaves Hlen) as (x & Hwf & <- & <-).
  exists x. split; [|apply tree_flatten_eq].
  unfold tree_unflatten, tree_unflatten_built.
  by apply tree_unflatten_spec_shape.
Qed.

(** C3: the [num_leaves] of a spec built by the constructors is the number
    of [LeafSpec] nodes below it, and [tree_flatten] returns as many leaves
    as the [num_leaves] of the (constructed) spec it returns. *)
Theorem num_leaves_counts_leaves (s : TreeSpec) (x : pyval) :
  constructed s →
  num_leaves s = count_LeafSpec s
  ∧ ∃ leaves spec,
      tree_flatten x = Ok (leaves, spec)
      ∧ constructed spec
      ∧ length leaves = num_leaves spec.
Proof.
  intros Hs. split; [by apply constructed_count_LeafSpec|].
  exists (preorder_leaves x), (shape x).
  split; [apply tree_flatten_eq|].
  split; [apply constructed_shape|apply length_preorder_leaves].
Qed.

(** C4: [tree_flatten] returns for every value: the value is a leaf or its
    type has a [NodeDef] whose [flatten_fn] decomposes it, no exception is
    raised on any recursion budget above the value's nesting depth, and the
    leaves returned are
    the value's leaves in left-to-right, depth-first order. *)
Theorem tree_flatten_total_preorder (x : pyval) :
  (_is_leaf x = true
   ∨ ∃ nd child_pytrees context,
       SUPPORTED_NODES_getitem (Some (type_of x)) = Ok nd
       ∧ flatten_fn nd x = Ok (child_pytrees, context))
  ∧ ∃ spec,
      tree_flatten x = Ok (preorder_leaves x, spec)
      ∧ ∀ limit, height x < limit →
          tree_flatten_limit limit x = Ok (preorder_leaves x, spec).
Proof.
  split.
  - destruct (_is_leaf x) eqn:Hleaf; [by left|right].
    destruct (getitem_registered x Hleaf) as (nd & ? & ?). by eexists _, _, _.
  - exists (shape x). split; [apply tree_flatten_eq|].
    intros limit Hlimit. by apply tree_flatten_limit_ok.
Qed.

(** C5, amended: for a [TreeSpec] left as its constructors built it,
    [tree_unflatten(values, spec)] raises [InvalidSpecKind] exactly when
    [spec] is not a [TreeSpec]; when [spec] is a [TreeSpec] and
    [len(values) != spec.num_leaves] it raises [LeafCountMismatch], reporting
    both counts, exactly when [spec] can be rendered into the message (every
    node that is not a [LeafSpec] has a type), and [AttributeError] from that
    rendering when it cannot; in all these cases before any pytree has been
    built; otherwise it returns a value exactly when every container node of
    [spec] names a registered type and every dict node carries a list of
    keys. *)
Theorem tree_unflatten_errors (values : list pyval) (spec : pyobj) :
  (∀ s, spec = OSpec s → constructed s) →
  (tree_unflatten values spec = Raise InvalidSpecKind
   ↔ isinstance_TreeSpec spec = false)
  ∧ ((∃ actual expected,
        tree_unflatten values spec = Raise (LeafCountMismatch actual expected))
     ↔ ∃ s, spec = OSpec s ∧ length values ≠ num_leaves s
            ∧ renderable s = true)
  ∧ (∀ actual expected,
       tree_unflatten values spec = Raise (LeafCountMismatch actual expected) →
       actual = length values ∧ ∃ s, spec = OSpec s ∧ expected = num_leaves s)
  ∧ (tree_unflatten values spec = Raise AttributeError
     ↔ ∃ s, spec = OSpec s ∧ length values ≠ num_leaves s
            ∧ renderable s = false)
  ∧ (isinstance_TreeSpec spec = false
     ∨ (∃ s, spec = OSpec s ∧ length values ≠ num_leaves s) →
     (tree_unflatten_built values spec).1 = 0)
  ∧ (∀ s, spec = OSpec s → length values = num_leaves s →
       ((∃ x, tree_unflatten values spec = Ok x) ↔ recomposable s = true)).
Proof.
  intros Hc. destruct spec as [s|v]; unfold tree_unflatten; simpl.
  2:{ split; [done|]. split; [|split; [done|split; [|split; [done|]]]].
      - split; [intros (? & ? & [=])|intros (? & [=] & _)].
      - split; [done|intros (? & [=] & _)].
      - intros ? [=]. }
  specialize (Hc s eq_refl).
  destruct (decide (length values = num_leaves s)) as [Hlen|Hne].
  - destruct (tree_unflatten_spec values s) as [n r] eqn:Hr. simpl.
    assert (r ≠ Raise InvalidSpecKind) as Hisk.
    { intros ->. by apply tree_unflatten_spec_not_InvalidSpecKind in Hr. }
    assert (∀ e, r = Raise e → e = KeyError ∨ e = TypeError) as Hraise.
    { intros e ->. by eapply tree_unflatten_spec_raise. }
    split; [done|]. split; [|split; [|split; [|split]]].
    + split; [intros (a & e & ?); by destruct (Hraise _ ltac:(done))|].
      intros (? & [= <-] & ? & _). done.
    + intros a e ?. by destruct (Hraise _ ltac:(done)).
    + split; [intros ?; by destruct (Hraise _ ltac:(done))|].
      intros (? & [= <-] & ? & _). done.
    + intros [?|(? & [= <-] & ?)]; done.
    + intros ? [= <-] _. split.
      * intros [x ->]. by eapply tree_unflatten_spec_return_inv.
      * intros Hrec.
        destruct (tree_unflatten_spec_return s Hc Hrec values Hlen)
          as (m & x & Hx).
        rewrite Hx in Hr. injection Hr as _ <-. by exists x.
  - rewrite tree_unflatten_spec_eq, bool_decide_true by done.
    rewrite raise_length_mismatch_cases. cbn [fst snd].
    split; [by destruct (renderable s)|].
    split; [|split; [|split; [|split; [done|]]]].
    + split.
      * intros (a & e & Heq). exists s. split; [done|]. split; [done|].
        by destruct (renderable s).
      * intros (? & [= <-] & _ & ->). by eexists _, _.
    + intros a e Heq. destruct (renderable s); [|done].
      injection Heq as <- <-. split; [done|by exists s].
    + split.
      * intros Heq. exists s. split; [done|]. split; [done|].
        by destruct (renderable s).
      * intros (? & [= <-] & _ & ->). done.
    + intros ? [= <-] ?. done.
Qed.

(** C6: on specs built by the constructors, [__eq__] holds exactly when the
    two specs have the same variant, container type and context and pairwise
    equal children, that is, when they are the same tree; the specs of
    [{"a": 1, "b": 2}] and [{"a": 3, "b": 4}] are equal, and the spec of
    [{"b": 2, "a": 1}] is equal to neither. *)
Theorem TreeSpec_eq_is_structural (s1 s2 : TreeSpec) :
  constructed s1 → constructed s2 →
  (TreeSpec_eq s1 s2 = true ↔ structurally_equal s1 s2 = true)
  ∧ (TreeSpec_eq s1 s2 = true ↔ s1 = s2)
  ∧ ∃ s_ab s_ab' s_ba,
      tree_flatten dict_a1_b2 = Ok ([int 1; int 2], s_ab)
      ∧ tree_flatten dict_a3_b4 = Ok ([int 3; int 4], s_ab')
      ∧ tree_flatten dict_b2_a1 = Ok ([int 2; int 1], s_ba)
      ∧ TreeSpec_eq s_ab s_ab' = true
      ∧ TreeSpec_eq s_ab s_ba = false
      ∧ TreeSpec_eq s_ab' s_ba = false.
Proof.
  intros H1 H2. split; [|split].
  - by rewrite TreeSpec_eq_structural.
  - split; [by apply TreeSpec_eq_true|]. intros ->. apply TreeSpec_eq_refl.
  - eexists _, _, _. repeat split; reflexivity.
Qed.

(** C7: a leaf broadcasts to any spec as [spec.num_leaves] copies of itself;
    [0] against [TreeSpec(list, None, [LeafSpec(), LeafSpec()])] gives
    [[0, 0]]. *)
Theorem broadcast_leaf (v : pyval) (spec : TreeSpec) :
  _is_leaf v = true →
  _broadcast_to_and_flatten v (OSpec spec)
  = Ok (Some (replicate (num_leaves spec) v))
  ∧ tree_flatten (PList [int 1; int 2]) = Ok ([int 1; int 2], two_leaf_list_spec)
  ∧ _broadcast_to_and_flatten (int 0) (OSpec two_leaf_list_spec)
    = Ok (Some [int 0; int 0]).
Proof.
  intros Hleaf. split; [|split; reflexivity].
  unfold _broadcast_to_and_flatten. by rewrite _broadcast_spec_eq, Hleaf.
Qed.

(** C8: for a container [v], decomposed by its [flatten_fn] into
    [child_pytrees] and [ctx], the function returns [None] exactly when
    [spec] is a [LeafSpec], or the types differ, or the numbers of children
    differ, or the contexts differ, or broadcasting some child to the child
    spec at its position gives [None]; otherwise it returns the results for
    the children, concatenated in order. *)
Theorem broadcast_container (v : pyval) (spec : TreeSpec) :
  _is_leaf v = false →
  ∃ nd child_pytrees ctx,
    SUPPORTED_NODES_getitem (Some (type_of v)) = Ok nd
    ∧ flatten_fn nd v = Ok (child_pytrees, ctx)
    ∧ let fails :=
        is_LeafSpec spec = true
        ∨ Some (type_of v) ≠ type spec
        ∨ length child_pytrees ≠ length (children_specs spec)
        ∨ ctx ≠ context spec
        ∨ ∃ i child child_spec,
            child_pytrees !! i = Some child
            ∧ children_specs spec !! i = Some child_spec
            ∧ _broadcast_to_and_flatten child (OSpec child_spec) = Ok None in
      (_broadcast_to_and_flatten v (OSpec spec) = Ok None ↔ fails)
      ∧ (¬ fails →
         ∃ flats,
           Forall2 (λ p flat,
                      _broadcast_to_and_flatten p.1 (OSpec p.2) = Ok (Some flat))
             (zip child_pytrees (children_specs spec)) flats
           ∧ _broadcast_to_and_flatten v (OSpec spec) = Ok (Some (concat flats))).
Proof.
  intros Hleaf.
  destruct (getitem_registered v Hleaf) as (nd & Hget & Hflat).
  exists nd, (children v), (node_context v).
  split; [done|]. split; [done|]. intros fails. subst fails.
  unfold _broadcast_to_and_flatten.
  rewrite _broadcast_spec_eq, Hleaf, Hget. simpl. rewrite Hflat. simpl.
  destruct (is_LeafSpec spec) eqn:Hlf.
  { split; [split; auto|]. intros []. auto. }
  case_bool_decide as Htyp.
  { split; [split; auto|]. intros []. auto. }
  case_bool_decide as Hlen.
  { split; [split; auto|]. intros []. auto. }
  case_bool_decide as Hctx.
  { split; [split; auto 6|]. intros []. auto 6. }
  simpl.
  assert (Forall (λ s, ∀ c : pyval, ∃ r, _broadcast_spec c s = Ok r)
            (children_specs spec)) as Htotal.
  { apply Forall_forall. intros s _. apply _broadcast_spec_total. }
  destruct (_broadcast_loop_cases _broadcast_spec (children_specs spec) Htotal
              (children v) [])
    as [[-> Hi]|(flats & -> & HF & Hall)].
  - split; [split; auto 6|]. intros []. auto 6.
  - split.
    + split; [done|].
      intros [?|[?|[?|[?|(i & c & s & Hc & Hs & Hnone)]]]]; try done.
      by destruct (Hall i c s Hc Hs).
    + intros _. by exists flats.
Qed.

(** C9, amended: for every value and every [TreeSpec], the function returns
    a list or [None] and raises nothing. *)
Theorem broadcast_never_raises (pytree : pyval) (spec : pyobj) :
  isinstance_TreeSpec spec = true →
  ∃ r, _broadcast_to_and_flatten pytree spec = Ok r.
Proof.
  destruct spec as [s|v]; [|done]. intros _. apply _broadcast_spec_total.
Qed.

(** C10: a list returned by [_broadcast_to_and_flatten] has as many elements
    as the spec has leaves. *)
Theorem broadcast_length (v : pyval) (spec : TreeSpec) (out : list pyval) :
  constructed spec →
  _broadcast_to_and_flatten v (OSpec spec) = Ok (Some out) →
  length out = num_leaves spec.
Proof. intros Hc Hb. by eapply _broadcast_spec_length. Qed.

End claims.

(** * Further properties of the module *)

#[local] Set Warnings "-clear-no-such-hyp".

Section further.
Context {atom key : Type} `{!EqDecision key} `{!Rendering key}.
#[local] Abbreviation pyval := (pyval atom key).
#[local] Abbreviation TreeSpec := (TreeSpec key).
#[local] Abbreviation pyobj := (pyobj atom key).
#[local] Abbreviation NodeDef := (NodeDef atom key).
Implicit Types (v x y pytree child : pyval).
Implicit Types (spec s self other : TreeSpec).
Implicit Types (values leaves : list pyval).

(** ** The node definitions and the registry *)

(** X1: what the registered [flatten_fn] takes apart, the registered
    [unflatten_fn] of the same type puts together again. *)
Theorem unflatten_fn_flatten_fn v :
  _is_leaf v = false → py_wf v = true →
  ∃ nd child_pytrees context,
    SUPPORTED_NODES_getitem (Some (type_of v)) = Ok nd
    ∧ flatten_fn nd v = Ok (child_pytrees, context)
    ∧ unflatten_fn nd child_pytrees context = Ok v.
Proof.
  intros Hleaf Hwf.
  destruct v as [a|xs|xs|items]; try discriminate Hleaf;
    eexists _, _, _; (split; [reflexivity|]); (split; [reflexivity|]);
    try reflexivity.
  simpl in Hwf. apply andb_true_iff in Hwf as [Hnd _].
  apply bool_decide_eq_true in Hnd. by apply _dict_unflatten_items.
Qed.

(** X2: conversely, children put together under a context that fits the
    type (for a dict: distinct keys, one for each child) come apart into the
    same children and the same context. *)
Theorem flatten_fn_unflatten_fn (t : pytype) (child_pytrees : list pyval)
    (context : Context_t key) :
  context_fits (Some t) context (length child_pytrees) = true →
  ∃ nd v,
    SUPPORTED_NODES_getitem (Some t) = Ok nd
    ∧ unflatten_fn nd child_pytrees context = Ok v
    ∧ type_of v = t
    ∧ flatten_fn nd v = Ok (child_pytrees, context).
Proof.
  intros Hfits. destruct t; destruct context as [|ks]; try discriminate Hfits.
  - apply andb_true_iff in Hfits as [Hnd Hlen].
    apply bool_decide_eq_true in Hnd, Hlen.
    exists (MkNodeDef _dict_flatten _dict_unflatten),
           (PDict (zip ks child_pytrees)).
    split; [reflexivity|]. split; [|split; [reflexivity|]].
    + cbn [unflatten_fn]. unfold _dict_unflatten.
      rewrite dict_of_items_nodup; [done|done|done].
    + cbn [flatten_fn _dict_flatten].
      rewrite fst_zip, snd_zip by lia. done.
  - exists (MkNodeDef _list_flatten _list_unflatten), (PList child_pytrees).
    done.
  - exists (MkNodeDef _tuple_flatten _tuple_unflatten), (PTuple child_pytrees).
    done.
Qed.

Lemma dict_setitem_keys (d : list (key * pyval)) k v :
  (dict_setitem d k v).*1 = if decide (k ∈ d.*1) then d.*1 else d.*1 ++ [k].
Proof.
  induction d as [|[k' v'] d IH]; [done|].
  cbn [dict_setitem]. rewrite fmap_cons. cbn [fst].
  destruct (decide (k' = k)) as [->|Hne]; rewrite fmap_cons; cbn [fst].
  - rewrite decide_True by left. done.
  - rewrite IH. destruct (decide (k ∈ d.*1)) as [Hin|Hnin].
    + rewrite decide_True by (by right). done.
    + rewrite decide_False; [done|].
      intros [?|?]%elem_of_cons; [by subst|done].
Qed.

Lemma dict_setitem_NoDup (d : list (key * pyval)) k v :
  NoDup d.*1 → NoDup (dict_setitem d k v).*1.
Proof.
  intros Hnd. rewrite dict_setitem_keys. case_decide; [done|].
  apply NoDup_app. split; [done|]. split; [|apply NoDup_singleton].
  intros k' Hk' ->%list_elem_of_singleton. done.
Qed.

Lemma dict_setitem_elem_of (d : list (key * pyval)) k v k' v' :
  NoDup d.*1 →
  (k', v') ∈ dict_setitem d k v
  ↔ (k' = k ∧ v' = v) ∨ (k' ≠ k ∧ (k', v') ∈ d).
Proof.
  induction d as [|[k0 v0] d IH]; simpl; intros Hnd.
  { rewrite list_elem_of_singleton. split.
    - intros [= -> ->]. by left.
    - intros [[-> ->]|[_ []%elem_of_nil]]. done. }
  apply NoDup_cons in Hnd as [Hk0 Hnd].
  destruct (decide (k0 = k)) as [->|Hne].
  - rewrite !elem_of_cons. split.
    + intros [[= -> ->]|Hin]; [by left|]. right. split; [|by right].
      intros ->. apply Hk0. apply list_elem_of_fmap. by exists (k, v').
    + intros [[-> ->]|[Hne [[= -> _]|Hin]]]; [by left|done|by right].
  - rewrite !elem_of_cons, IH by done. split.
    + intros [[= -> ->]|[[-> ->]|[? ?]]]; [|by left|].
      * right. split; [done|by left].
      * right. split; [done|by right].
    + intros [[-> ->]|[? [[= -> ->]|?]]]; [right; by left|by left|].
      right. right. done.
Qed.

Lemma fst_zip_take_length (ks : list key) (values : list pyval) :
  (zip ks values).*1 = take (length values) ks.
Proof.
  revert values. induction ks as [|k ks IH]; intros [|v values]; simpl;
    try done.
  by rewrite IH.
Qed.

(** The dict a comprehension builds from [pairs], starting from [d]. *)
Lemma dict_of_pairs (pairs : list (key * pyval)) :
  ∀ d : list (key * pyval), NoDup d.*1 →
    let items := foldl (λ d kv, dict_setitem d kv.1 kv.2) d pairs in
    NoDup items.*1
    ∧ (∀ k, k ∈ items.*1 ↔ (k ∈ d.*1) ∨ (k ∈ pairs.*1))
    ∧ ∀ k v, (k, v) ∈ items
        ↔ (∃ l1 l2, pairs = l1 ++ (k, v) :: l2 ∧ k ∉ l2.*1)
          ∨ ((k ∉ pairs.*1) ∧ (k, v) ∈ d).
Proof.
  induction pairs as [|[k0 v0] pairs IH]; intros d Hnd; simpl.
  { split; [done|]. split.
    - intros k. rewrite elem_of_nil. naive_solver.
    - intros k v. split; [intros ?; right; split; [apply not_elem_of_nil|done]|].
      intros [(l1 & l2 & Heq & _)|[_ ?]]; [by destruct l1|done]. }
  destruct (IH (dict_setitem d k0 v0) (dict_setitem_NoDup d k0 v0 Hnd))
    as (Hnd' & Hkeys & Hitems).
  split; [done|]. split.
  - intros k. rewrite Hkeys, dict_setitem_keys, elem_of_cons.
    case_decide; [|rewrite elem_of_app, list_elem_of_singleton];
      naive_solver.
  - intros k v. rewrite Hitems, dict_setitem_elem_of by done.
    rewrite elem_of_cons. split.
    + intros [(l1 & l2 & -> & Hl2)|[Hk [[-> ->]|[Hne Hd]]]].
      * left. by exists ((k0, v0) :: l1), l2.
      * left. by exists [], pairs.
      * right. split; [|done]. intros [?|?]; done.
    + intros [(l1 & l2 & Heq & Hl2)|[Hk Hd]].
      * destruct l1 as [|p l1]; simpl in Heq; simplify_eq.
        -- right. split; [done|by left].
        -- left. by exists l1, l2.
      * right. split; [naive_solver|]. right. split; [naive_solver|done].
Qed.

(** X3: [_dict_unflatten] builds a dict for every list of keys: its keys
    are distinct and are the keys that have a value, and where a key
    occurs more than once its last value stays.  Without a list of keys
    it raises [TypeError]. *)
Theorem _dict_unflatten_last_wins (values : list pyval) (ks : list key) :
  _dict_unflatten values CNone = Raise TypeError
  ∧ ∃ items,
      _dict_unflatten values (CKeys ks) = Ok (PDict items)
      ∧ NoDup items.*1
      ∧ (∀ k, k ∈ items.*1 ↔ k ∈ take (length values) ks)
      ∧ ∀ k v, (k, v) ∈ items
          ↔ ∃ l1 l2, zip ks values = l1 ++ (k, v) :: l2 ∧ k ∉ l2.*1.
Proof.
  split; [done|]. eexists. split; [reflexivity|].
  destruct (dict_of_pairs (zip ks values) [] (NoDup_nil_2))
    as (Hnd & Hkeys & Hitems).
  split; [done|]. split.
  - intros k. rewrite Hkeys, fst_zip_take_length. simpl. rewrite elem_of_nil.
    naive_solver.
  - intros k v. rewrite Hitems. rewrite elem_of_nil. naive_solver.
Qed.

(** ** tree_flatten *)

Lemma preorder_leaves_are_leaves v :
  Forall (λ leaf, _is_leaf leaf = true) (preorder_leaves v).
Proof.
  induction v as [v IH] using pyval_children_ind.
  destruct (_is_leaf v) eqn:Hleaf.
  { apply _is_leaf_true in Hleaf as [a ->]. by repeat constructor. }
  rewrite preorder_leaves_children by done.
  apply Forall_concat, Forall_fmap. exact IH.
Qed.

(** X4: every element of the list [tree_flatten] returns is a leaf, so
    flattening it again returns it alone under a [LeafSpec]. *)
Theorem tree_flatten_leaves_are_leaves x :
  ∃ leaves spec,
    tree_flatten x = Ok (leaves, spec)
    ∧ Forall (λ leaf, _is_leaf leaf = true
                      ∧ tree_flatten leaf = Ok ([leaf], LeafSpec_init)) leaves.
Proof.
  exists (preorder_leaves x), (shape x). split; [apply tree_flatten_eq|].
  eapply Forall_impl; [apply preorder_leaves_are_leaves|]. simpl.
  intros leaf Hleaf. split; [done|].
  apply _is_leaf_true in Hleaf as [a ->]. reflexivity.
Qed.

(** X6: a container flattens to the concatenation of what its children
    flatten to, under a spec holding its type, the context its [flatten_fn]
    computed and the children's specs. *)
Theorem tree_flatten_container v (nd : NodeDef) (child_pytrees : list pyval)
    (context : Context_t key) (flat : list (list pyval * TreeSpec)) :
  _is_leaf v = false →
  SUPPORTED_NODES_getitem (Some (type_of v)) = Ok nd →
  flatten_fn nd v = Ok (child_pytrees, context) →
  Forall2 (λ child r, tree_flatten child = Ok r) child_pytrees flat →
  tree_flatten v
  = Ok (concat flat.*1, TreeSpec_init (Some (type_of v)) context flat.*2).
Proof.
  intros Hleaf Hget Hflat Hch.
  destruct (getitem_registered v Hleaf) as (nd' & Hget' & Hflat').
  rewrite Hget in Hget'. injection Hget' as <-.
  rewrite Hflat in Hflat'. injection Hflat' as -> ->.
  rewrite tree_flatten_eq, preorder_leaves_children, shape_children by done.
  assert (∀ (cs : list pyval) rs,
            Forall2 (λ child r, tree_flatten child = Ok r) cs rs →
            rs = (λ child, (preorder_leaves child, shape child)) <$> cs)
    as Haux.
  { induction 1 as [|child r cs rs Hr _ IH]; [done|].
    rewrite tree_flatten_eq in Hr. injection Hr as <-. by rewrite IH. }
  rewrite (Haux _ _ Hch). by rewrite <-!list_fmap_compose.
Qed.

(** X7: the leaves and the spec determine the value: two values whose
    dicts have distinct keys and that flatten to the same result are the
    same value. *)
Theorem tree_flatten_injective x y :
  py_wf x = true → py_wf y = true →
  tree_flatten x = tree_flatten y → x = y.
Proof.
  intros Hx Hy. rewrite !tree_flatten_eq. intros [= Hleaves Hshape].
  apply tree_unflatten_spec_shape in Hx, Hy.
  rewrite Hleaves, Hshape in Hx. rewrite Hx in Hy. by injection Hy.
Qed.

(** ** tree_unflatten *)

Lemma tree_unflatten_spec_Ok_length values spec n x :
  tree_unflatten_spec values spec = (n, Ok x) →
  length values = num_leaves spec.
Proof.
  rewrite tree_unflatten_spec_eq.
  destruct (decide (length values = num_leaves spec)) as [|Hne]; [done|].
  rewrite bool_decide_true by done. intros [= _ Heq].
  by apply raise_length_mismatch_not_Ok in Heq.
Qed.

Lemma tree_unflatten_loop_chunks rec (cs : list TreeSpec)
    (chunks : list (list pyval)) (xs : list pyval) :
  Forall3 (λ c chunk x, length chunk = num_leaves c ∧ (rec chunk c).2 = Ok x)
    cs chunks xs →
  ∀ pre suf child_pytrees built,
    (tree_unflatten_loop rec (pre ++ concat chunks ++ suf) cs
       (length pre) (length pre) child_pytrees built).2
    = Ok (child_pytrees ++ xs).
Proof.
  induction 1 as [|c chunk x cs chunks xs [Hlen Hx] _ IH];
    intros pre suf child_pytrees built.
  { simpl. by rewrite app_nil_r. }
  cbn [tree_unflatten_loop concat]. rewrite <-(app_assoc chunk).
  rewrite slice_middle by done.
  destruct (rec chunk c) as [n r]. simpl in Hx. subst r.
  rewrite <-Hlen, <-length_app.
  rewrite (app_assoc pre), IH. by rewrite <-app_assoc.
Qed.

(** X8: against a node built by [TreeSpec.__init__], the values are cut
    into consecutive slices, one for each child spec and as long as it has
    leaves, and the result is the [unflatten_fn] of the node's type applied
    to the children unflattened from the slices. *)
Theorem tree_unflatten_container (typ : option pytype)
    (ctx : Context_t key) (cs : list TreeSpec)
    (chunks : list (list pyval)) (xs : list pyval) (nd : NodeDef) :
  SUPPORTED_NODES_getitem typ = Ok nd →
  Forall3 (λ c chunk x, tree_unflatten chunk (OSpec c) = Ok x) cs chunks xs →
  tree_unflatten (concat chunks) (OSpec (TreeSpec_init typ ctx cs))
  = unflatten_fn nd xs ctx.
Proof.
  intros Hget Hch. unfold tree_unflatten, tree_unflatten_built in *.
  assert (Forall3 (λ c chunk x, length chunk = num_leaves c
                                ∧ (tree_unflatten_spec chunk c).2 = Ok x)
            cs chunks xs) as Hch'.
  { eapply Forall3_impl; [exact Hch|]. simpl. intros c chunk x Hx.
    split; [|done].
    destruct (tree_unflatten_spec chunk c) as [n r] eqn:Hr. simpl in Hx.
    subst r. by eapply tree_unflatten_spec_Ok_length. }
  assert (length (concat chunks) = sum_list (num_leaves <$> cs)) as Hlen.
  { clear -Hch'. induction Hch' as [|c chunk x cs chunks xs [Hl _] _ IH];
      [done|].
    rewrite fmap_cons. cbn [concat sum_list sum_list_with id].
    by rewrite length_app, Hl, IH. }
  rewrite tree_unflatten_spec_eq.
  cbn [TreeSpec_init is_LeafSpec type context children_specs num_leaves].
  rewrite bool_decide_false by auto. rewrite Hget.
  pose proof (tree_unflatten_loop_chunks tree_unflatten_spec cs chunks xs Hch'
                [] [] [] 0) as Hloop.
  simpl in Hloop. rewrite app_nil_r in Hloop.
  destruct (tree_unflatten_loop _ _ _ _ _ _ _) as [n r]. simpl in Hloop.
  subst r. by destruct (unflatten_fn nd xs ctx).
Qed.

Lemma tree_unflatten_loop_py_wf rec values (specs : list TreeSpec) :
  Forall (λ v, py_wf v = true) values →
  Forall (λ s, ∀ vs n x, Forall (λ v, py_wf v = true) vs →
            rec vs s = (n, Ok x) → py_wf x = true) specs →
  ∀ start end_ child_pytrees built n xs,
    Forall (λ v, py_wf v = true) child_pytrees →
    tree_unflatten_loop rec values specs start end_ child_pytrees built
      = (n, Ok xs) →
    Forall (λ v, py_wf v = true) xs.
Proof.
  intros Hvalues. induction 1 as [|s specs Hs _ IH];
    intros start end_ child_pytrees built n xs Hacc Hloop.
  { by injection Hloop as _ <-. }
  cbn [tree_unflatten_loop] in Hloop.
  destruct (rec _ s) as [m [x|e]] eqn:Hrec; [|discriminate Hloop].
  eapply IH; [|exact Hloop].
  apply Forall_app. split; [done|]. constructor; [|constructor].
  eapply Hs; [|exact Hrec]. unfold slice. by apply Forall_take, Forall_drop.
Qed.

Lemma tree_unflatten_spec_py_wf spec :
  ∀ values n x, Forall (λ v, py_wf v = true) values →
    tree_unflatten_spec values spec = (n, Ok x) → py_wf x = true.
Proof.
  induction spec as [spec IH] using TreeSpec_children_ind.
  intros values n x Hvalues Heq. rewrite tree_unflatten_spec_eq in Heq.
  case_bool_decide.
  { injection Heq as _ Heq. by apply raise_length_mismatch_not_Ok in Heq. }
  destruct (is_LeafSpec spec).
  { destruct values as [|v values]; [discriminate Heq|].
    injection Heq as _ <-. by apply Forall_cons in Hvalues as [? _]. }
  destruct (SUPPORTED_NODES_getitem (type spec)) as [nd|e] eqn:Hget;
    [|discriminate Heq].
  destruct (tree_unflatten_loop _ _ _ _ _ _ _) as [m [xs|e]] eqn:Hloop;
    [|discriminate Heq].
  apply tree_unflatten_loop_py_wf in Hloop; [|done|done|constructor].
  destruct (type spec) as [[]|]; try discriminate Hget;
    injection Hget as <-; cbn [unflatten_fn] in Heq.
  - destruct (context spec) as [|ks]; [discriminate Heq|].
    injection Heq as _ <-.
    destruct (dict_of_pairs (zip ks xs) [] (NoDup_nil_2))
      as (Hnd & _ & Hitems).
    simpl. apply andb_true_iff. split; [by apply bool_decide_eq_true|].
    apply forallb_Forall, Forall_forall. intros [k v] Hin. simpl.
    apply Hitems in Hin as [(l1 & l2 & Hzip & _)|[_ []%elem_of_nil]].
    assert ((k, v) ∈ zip ks xs) as Hkv.
    { rewrite Hzip. apply elem_of_app. right. left. }
    apply elem_of_zip_r in Hkv. rewrite Forall_forall in Hloop. auto.
  - injection Heq as _ <-. simpl. by apply forallb_Forall.
  - injection Heq as _ <-. simpl. by apply forallb_Forall.
Qed.

(** X9: whatever the spec, a value unflattened from values whose dicts
    have distinct keys has distinct keys in all its dicts again. *)
Theorem tree_unflatten_py_wf values (spec : pyobj) x :
  Forall (λ v, py_wf v = true) values →
  tree_unflatten values spec = Ok x →
  py_wf x = true.
Proof.
  intros Hvalues. unfold tree_unflatten, tree_unflatten_built.
  destruct spec as [s|v]; [|done].
  destruct (tree_unflatten_spec values s) as [n r] eqn:Hr. simpl.
  intros ->. by eapply tree_unflatten_spec_py_wf.
Qed.

(** X10: on a spec built by the constructors that has a rendering,
    [tree_unflatten] raises nothing but the mismatch of the counts at the
    root, [KeyError] from the registry lookup and [TypeError] from
    [unflatten_fn]; there is no mismatch below the root and no
    [IndexError]. *)
Theorem tree_unflatten_exceptions values spec (e : error) :
  constructed spec → renderable spec = true →
  tree_unflatten values (OSpec spec) = Raise e →
  (e = LeafCountMismatch (length values) (num_leaves spec)
   ∧ length values ≠ num_leaves spec)
  ∨ ((e = KeyError ∨ e = TypeError)
     ∧ length values = num_leaves spec ∧ recomposable spec = false).
Proof.
  intros Hc Hrender. unfold tree_unflatten, tree_unflatten_built.
  destruct (tree_unflatten_spec values spec) as [n r] eqn:Hr. simpl.
  intros ->.
  destruct (decide (length values = num_leaves spec)) as [Hlen|Hne].
  - right. split; [by eapply tree_unflatten_spec_raise|]. split; [done|].
    destruct (recomposable spec) eqn:Hrec; [|done].
    destruct (tree_unflatten_spec_return spec Hc Hrec values Hlen)
      as (m & x & Hx).
    rewrite Hx in Hr. discriminate Hr.
  - left. rewrite tree_unflatten_spec_eq, bool_decide_true in Hr by done.
    rewrite raise_length_mismatch_cases, Hrender in Hr.
    by injection Hr as _ <-.
Qed.

(** ** _broadcast_to_and_flatten *)

Lemma _broadcast_loop_shape rec (cs : list pyval) :
  Forall (λ c, rec c (shape c) = Ok (Some (preorder_leaves c))) cs →
  ∀ result,
    _broadcast_loop rec cs (shape <$> cs) result
    = Ok (Some (result ++ concat (preorder_leaves <$> cs))).
Proof.
  induction 1 as [|c cs Hc _ IH]; intros result.
  { simpl. by rewrite app_nil_r. }
  rewrite !fmap_cons. cbn [_broadcast_loop concat]. rewrite Hc. simpl.
  rewrite IH. by rewrite <-app_assoc.
Qed.

Lemma _broadcast_spec_shape v :
  _broadcast_spec v (shape v) = Ok (Some (preorder_leaves v)).
Proof.
  induction v as [v IH] using pyval_children_ind.
  rewrite _broadcast_spec_eq.
  destruct (_is_leaf v) eqn:Hleaf.
  { apply _is_leaf_true in Hleaf as [a ->]. reflexivity. }
  destruct (getitem_registered v Hleaf) as (nd & -> & Hflat).
  rewrite shape_children, preorder_leaves_children by done.
  cbn [TreeSpec_init is_LeafSpec type context children_specs num_leaves].
  rewrite bool_decide_false by auto. simpl. rewrite Hflat. simpl.
  rewrite bool_decide_false by (rewrite length_fmap; auto).
  rewrite bool_decide_false by auto. simpl.
  by rewrite _broadcast_loop_shape.
Qed.

(** X11: a value broadcasts to its own spec, and the result is the list of
    leaves [tree_flatten] returns with that spec. *)
Theorem broadcast_own_spec x :
  ∃ leaves spec,
    tree_flatten x = Ok (leaves, spec)
    ∧ _broadcast_to_and_flatten x (OSpec spec) = Ok (Some leaves).
Proof.
  exists (preorder_leaves x), (shape x). split; [apply tree_flatten_eq|].
  apply _broadcast_spec_shape.
Qed.

Lemma _broadcast_loop_Forall rec (Q : pyval → Prop) (specs : list TreeSpec) :
  ∀ (cs : list pyval) result out,
    Forall Q result →
    (∀ i c s flat, cs !! i = Some c → specs !! i = Some s →
       rec c s = Ok (Some flat) → Forall Q flat) →
    _broadcast_loop rec cs specs result = Ok (Some out) →
    Forall Q out.
Proof.
  induction specs as [|s specs IH]; intros cs result out Hres Hrec Hloop.
  { destruct cs; by injection Hloop as <-. }
  destruct cs as [|c cs]; [by injection Hloop as <-|].
  cbn [_broadcast_loop] in Hloop.
  destruct (rec c s) as [[flat|]|e] eqn:Hc; try discriminate Hloop.
  simpl in Hloop. eapply IH; [| |exact Hloop].
  - apply Forall_app. split; [done|]. by apply (Hrec 0 c s).
  - intros i c' s' flat' Hi Hs. by apply (Hrec (S i)).
Qed.

Lemma elem_of_concat {A} (a : A) (ls : list (list A)) :
  a ∈ concat ls ↔ ∃ l, l ∈ ls ∧ a ∈ l.
Proof.
  induction ls as [|l ls IH]; simpl.
  - rewrite elem_of_nil. split; [done|]. by intros (? & []%elem_of_nil & _).
  - rewrite elem_of_app, IH. split.
    + intros [?|(l' & ? & ?)]; [exists l; split; [left|done]|].
      exists l'. split; [by right|done].
    + intros (l' & [->|?]%elem_of_cons & ?); [by left|]. right. by exists l'.
Qed.

Lemma _broadcast_spec_leaves spec :
  ∀ v out, _broadcast_spec v spec = Ok (Some out) →
    Forall (λ leaf, _is_leaf leaf = true ∧ leaf ∈ preorder_leaves v) out.
Proof.
  induction spec as [spec IH] using TreeSpec_children_ind.
  intros v out. rewrite _broadcast_spec_eq.
  destruct (_is_leaf v) eqn:Hleaf.
  { intros [= <-]. apply Forall_replicate. split; [done|].
    apply _is_leaf_true in Hleaf as [a ->]. left. }
  destruct (is_LeafSpec spec); [done|].
  case_bool_decide; [done|].
  destruct (getitem_registered v Hleaf) as (nd & -> & Hflat). simpl.
  rewrite Hflat. simpl.
  destruct (_ || _); [done|]. intros Hloop.
  eapply _broadcast_loop_Forall; [constructor| |exact Hloop].
  intros i c s flat Hc Hs Hrec.
  rewrite Forall_forall in IH.
  eapply Forall_impl; [apply (IH s); [by eapply list_elem_of_lookup_2|done]|].
  simpl. intros leaf [? Hin]. split; [done|].
  rewrite preorder_leaves_children by done.
  apply elem_of_concat. exists (preorder_leaves c). split; [|done].
  apply list_elem_of_fmap. exists c. split; [done|].
  by eapply list_elem_of_lookup_2.
Qed.

(** X12: every element of a broadcast result is a leaf of the value that
    was broadcast. *)
Theorem broadcast_leaves v spec (out : list pyval) :
  _broadcast_to_and_flatten v (OSpec spec) = Ok (Some out) →
  ∃ leaves s,
    tree_flatten v = Ok (leaves, s)
    ∧ Forall (λ leaf, _is_leaf leaf = true ∧ leaf ∈ leaves) out.
Proof.
  intros Hb. exists (preorder_leaves v), (shape v).
  split; [apply tree_flatten_eq|]. by apply (_broadcast_spec_leaves spec).
Qed.

(** X13: a broadcast result fits the spec it was broadcast to: when the
    spec is compatible with a decomposition, the result unflattens against
    it, and the value obtained flattens back to the result and the spec. *)
Theorem broadcast_unflatten v spec (out : list pyval) :
  compatible_with_decomposition spec = true →
  _broadcast_to_and_flatten v (OSpec spec) = Ok (Some out) →
  ∃ x, tree_unflatten out (OSpec spec) = Ok x
       ∧ tree_flatten x = Ok (out, spec).
Proof.
  intros Hcompat Hb.
  assert (length out = num_leaves spec) as Hlen.
  { eapply _broadcast_spec_length; [by apply compatible_constructed|done]. }
  assert (Forall (λ leaf, _is_leaf leaf = true) out) as Hleaves.
  { eapply Forall_impl; [by apply (_broadcast_spec_leaves spec v)|].
    by intros ? [? _]. }
  destruct (realise spec Hcompat out Hleaves Hlen) as (x & Hwf & <- & <-).
  exists x. split; [|apply tree_flatten_eq].
  by apply tree_unflatten_spec_shape.
Qed.

(** X14: broadcasting undoes unflattening: the value unflattened from
    leaves against a spec compatible with a decomposition broadcasts to
    that spec as the same leaves. *)
Theorem broadcast_tree_unflatten leaves spec :
  Forall (λ leaf, _is_leaf leaf = true) leaves →
  length leaves = num_leaves spec →
  compatible_with_decomposition spec = true →
  ∃ x, tree_unflatten leaves (OSpec spec) = Ok x
       ∧ _broadcast_to_and_flatten x (OSpec spec) = Ok (Some leaves).
Proof.
  intros Hleaves Hlen Hcompat.
  destruct (realise spec Hcompat leaves Hleaves Hlen) as (x & Hwf & <- & <-).
  exists x. split; [by apply tree_unflatten_spec_shape|].
  apply _broadcast_spec_shape.
Qed.

(** ** TreeSpec.__eq__ and __ne__ *)

Lemma list_eq_sym {A} (f : A → A → bool) (l1 l2 : list A) :
  Forall (λ a, ∀ b, f a b = f b a) l1 → list_eq f l1 l2 = list_eq f l2 l1.
Proof.
  intros H. revert l2.
  induction H as [|a l1 Ha _ IH]; intros [|b l2]; simpl; try done.
  by rewrite Ha, IH.
Qed.

Lemma TreeSpec_eq_sym s1 : ∀ s2, TreeSpec_eq s1 s2 = TreeSpec_eq s2 s1.
Proof.
  induction s1 as [s1 IH] using TreeSpec_children_ind. intros s2.
  rewrite (TreeSpec_eq_eq s1), (TreeSpec_eq_eq s2).
  rewrite (list_eq_sym _ _ _ IH).
  rewrite (bool_decide_ext (type s1 = type s2) (type s2 = type s1)) by done.
  rewrite (bool_decide_ext (context s1 = context s2) (context s2 = context s1))
    by done.
  by rewrite (bool_decide_ext (num_leaves s1 = num_leaves s2)
                (num_leaves s2 = num_leaves s1)).
Qed.

Lemma TreeSpec_eq_trans s1 :
  ∀ s2 s3, TreeSpec_eq s1 s2 = true → TreeSpec_eq s2 s3 = true →
    TreeSpec_eq s1 s3 = true.
Proof.
  induction s1 as [s1 IH] using TreeSpec_children_ind. intros s2 s3.
  rewrite !TreeSpec_eq_eq, !andb_true_iff, !bool_decide_eq_true,
    !list_eq_Forall2.
  intros (((Ht & Hc) & Hl) & Hn) (((Ht' & Hc') & Hl') & Hn').
  repeat split; try congruence.
  revert Hl Hl' IH. generalize (children_specs s1) (children_specs s2)
    (children_specs s3). clear.
  intros l1 l2 l3 H12. revert l3.
  induction H12 as [|a b l1 l2 Hab _ IHl]; intros l3 H23 IH;
    inversion H23 as [|? c ? l3' Hbc H23']; subst; constructor.
  - apply Forall_cons in IH as [IHa _]. by eapply IHa.
  - apply Forall_cons in IH as [_ IH]. by apply IHl.
Qed.

(** X15: [==] on specs is an equivalence: every spec equals itself, the
    order of the operands does not matter, and specs equal to the same spec
    are equal. *)
Theorem TreeSpec_eq_equivalence (s1 s2 s3 : TreeSpec) :
  TreeSpec_eq s1 s1 = true
  ∧ TreeSpec_eq s1 s2 = TreeSpec_eq s2 s1
  ∧ (TreeSpec_eq s1 s2 = true → TreeSpec_eq s2 s3 = true →
     TreeSpec_eq s1 s3 = true).
Proof.
  split; [apply TreeSpec_eq_refl|]. split; [apply TreeSpec_eq_sym|].
  apply TreeSpec_eq_trans.
Qed.

(** X16: [!=] answers the opposite of [==] whichever operand comes first,
    and on specs built by the constructors it is true exactly when the two
    specs differ. *)
Theorem TreeSpec_ne_differ (s1 s2 : TreeSpec) :
  constructed s1 → constructed s2 →
  (TreeSpec_ne s1 s2 = true ↔ s1 ≠ s2)
  ∧ TreeSpec_ne s1 s2 = TreeSpec_ne s2 s1
  ∧ TreeSpec_ne s1 s2 = negb (TreeSpec_eq s2 s1).
Proof.
  intros H1 H2. unfold TreeSpec_ne. rewrite (TreeSpec_eq_sym s2 s1).
  split; [|done]. rewrite negb_true_iff. split.
  - intros Hne ->. by rewrite TreeSpec_eq_refl in Hne.
  - intros Hne. destruct (TreeSpec_eq s1 s2) eqn:Heq; [|done].
    by apply TreeSpec_eq_true in Heq.
Qed.

(** X17: equal specs are interchangeable: the leaves of a value unflatten
    to that value against the spec of any value whose spec is equal, and
    the two values have the same number of leaves. *)
Theorem tree_unflatten_equal_spec x y :
  py_wf x = true →
  ∃ leaves_x spec_x leaves_y spec_y,
    tree_flatten x = Ok (leaves_x, spec_x)
    ∧ tree_flatten y = Ok (leaves_y, spec_y)
    ∧ (TreeSpec_eq spec_x spec_y = true →
       tree_unflatten leaves_x (OSpec spec_y) = Ok x
       ∧ length leaves_x = length leaves_y).
Proof.
  intros Hwf.
  exists (preorder_leaves x), (shape x), (preorder_leaves y), (shape y).
  split; [apply tree_flatten_eq|]. split; [apply tree_flatten_eq|].
  intros Heq. apply TreeSpec_eq_true in Heq; [|apply constructed_shape..].
  split.
  - rewrite <-Heq. by apply tree_unflatten_spec_shape.
  - by rewrite !length_preorder_leaves, Heq.
Qed.

(** ** Renderings *)

(** X18: [repr(spec)] returns a string exactly when every node, from the
    root down to the [LeafSpec]s, has a type; otherwise it raises
    [AttributeError] (for the [__name__] of [None]) and nothing else. *)
Theorem TreeSpec_repr_renderable spec :
  ((∃ str, TreeSpec_repr spec = Ok str) ↔ renderable spec = true)
  ∧ (TreeSpec_repr spec = Raise AttributeError ↔ renderable spec = false)
  ∧ ∀ e, TreeSpec_repr spec = Raise e → e = AttributeError.
Proof.
  pose proof (TreeSpec_repr_cases spec) as H.
  destruct (renderable spec).
  - destruct H as [str ->]. split; [split; [done|by eexists]|].
    split; [done|]. done.
  - rewrite H. split; [split; [by intros [? [=]]|done]|].
    split; [done|]. by intros e [= <-].
Qed.

(** X19: the spec [tree_flatten] returns always has a rendering, and a
    spec renders as [*] exactly when it is a [LeafSpec]. *)
Theorem TreeSpec_repr_tree_flatten x spec :
  (∃ leaves s str,
     tree_flatten x = Ok (leaves, s) ∧ TreeSpec_repr s = Ok str)
  ∧ (TreeSpec_repr spec = Ok "*" ↔ is_LeafSpec spec = true).
Proof.
  split.
  - pose proof (TreeSpec_repr_cases (shape x)) as H.
    rewrite renderable_shape in H. destruct H as [str H].
    exists (preorder_leaves x), (shape x), str.
    split; [apply tree_flatten_eq|done].
  - rewrite TreeSpec_repr_eq. destruct (is_LeafSpec spec); [done|].
    split; [|done].
    destruct (type spec); simpl; [|done].
    by destruct (repr_elements _ _).
Qed.

(** X20: the statement that reports a mismatch of the counts renders the
    spec into its message first: it raises the mismatch with both counts
    when the spec has a rendering, as every spec returned by [tree_flatten]
    has, and [AttributeError] when it has none. *)
Theorem raise_length_mismatch_rendering values spec x :
  (raise_length_mismatch values spec
   = if renderable spec
     then Raise (LeafCountMismatch (length values) (num_leaves spec))
     else Raise AttributeError)
  ∧ ∃ leaves s,
      tree_flatten x = Ok (leaves, s)
      ∧ raise_length_mismatch values s
        = Raise (LeafCountMismatch (length values) (length leaves)).
Proof.
  assert (∀ s, raise_length_mismatch values s
               = if renderable s
                 then Raise (LeafCountMismatch (length values) (num_leaves s))
                 else Raise AttributeError) as Hcases.
  { intros s. unfold raise_length_mismatch.
    pose proof (TreeSpec_repr_cases s) as H.
    destruct (renderable s); [by destruct H as [str ->]|by rewrite H]. }
  split; [apply Hcases|].
  exists (preorder_leaves x), (shape x). split; [apply tree_flatten_eq|].
  by rewrite Hcases, renderable_shape, length_preorder_leaves.
Qed.


End further.

(** * Examples, witnesses and counterexamples *)

(** Flattening [{"x": [1, 2], "y": (3,)}] gives the leaves [1, 2, 3]. *)
Example tree_flatten_nested_value :
  tree_flatten nested_value
  = Ok ([int 1; int 2; int 3],
        TreeSpec_init (Some Tdict) (CKeys ["x"%string; "y"%string])
          [TreeSpec_init (Some Tlist) CNone [LeafSpec_init; LeafSpec_init];
           TreeSpec_init (Some Ttuple) CNone [LeafSpec_init]]).
Proof. reflexivity. Qed.

(** Unflattening [[10, 20, 30]] against its spec gives
    [{"x": [10, 20], "y": (30,)}]. *)
Example tree_unflatten_nested_value :
  tree_unflatten [int 10; int 20; int 30] (OSpec (shape nested_value))
  = Ok (PDict [("x"%string, PList [int 10; int 20]);
               ("y"%string, PTuple [int 30])]).
Proof. reflexivity. Qed.

(** [unflatten([1, 2, 3], spec)] with [spec.num_leaves = 2]. *)
Example tree_unflatten_mismatch :
  tree_unflatten [int 1; int 2; int 3] (OSpec two_leaf_list_spec)
  = Raise (LeafCountMismatch 3 2).
Proof. reflexivity. Qed.

(** [[1, 2, 3]] does not broadcast to the spec of a two-element list. *)
Example broadcast_child_count_mismatch :
  _broadcast_to_and_flatten (PList [int 1; int 2; int 3])
    (OSpec two_leaf_list_spec) = Ok None.
Proof. reflexivity. Qed.

(** An exception below the root leaves pytrees built behind it: the first
    child is built before the second child's type is looked up. *)
Example tree_unflatten_built_before_KeyError :
  tree_unflatten_built [int 1]
    (OSpec (TreeSpec_init (Some Tlist) CNone [LeafSpec_init; childless_spec]))
  = (1, Raise KeyError).
Proof. reflexivity. Qed.

Lemma tree_unflatten_tree_flatten_witness :
  py_wf nested_value = true
  ∧ ∃ leaves spec,
      tree_flatten nested_value = Ok (leaves, spec)
      ∧ tree_unflatten leaves (OSpec spec) = Ok nested_value.
Proof.
  split; [reflexivity|].
  apply (tree_unflatten_tree_flatten nested_value). reflexivity.
Defined.

(** C2 as stated fails when a value handed in as a leaf is a list:
    [tree_unflatten([[1, 2]], LeafSpec())] is [[1, 2]], which flattens to
    two leaves and a list spec. *)
Lemma unflatten_list_leaf_reflattens :
  length [PList [int 1; int 2]] = num_leaves (LeafSpec_init (key:=string))
  ∧ tree_flatten (int 5) = Ok ([int 5], LeafSpec_init)
  ∧ compatible_with_decomposition (LeafSpec_init (key:=string)) = true
  ∧ tree_unflatten [PList [int 1; int 2]] (OSpec LeafSpec_init)
    = Ok (PList [int 1; int 2])
  ∧ tree_flatten (PList [int 1; int 2])
    = Ok ([int 1; int 2], two_leaf_list_spec)
  ∧ ¬ ∃ x, tree_unflatten [PList [int 1; int 2]] (OSpec LeafSpec_init) = Ok x
           ∧ tree_flatten x = Ok ([PList [int 1; int 2]], LeafSpec_init).
Proof.
  repeat (split; [reflexivity|]).
  intros (x & Hx & Hflat). injection Hx as <-. discriminate Hflat.
Qed.

Lemma tree_flatten_tree_unflatten_witness :
  Forall (λ v, _is_leaf v = true) [int 10; int 20; int 30]
  ∧ length [int 10; int 20; int 30] = num_leaves (shape nested_value)
  ∧ ∃ x, tree_unflatten [int 10; int 20; int 30] (OSpec (shape nested_value))
         = Ok x
         ∧ tree_flatten x = Ok ([int 10; int 20; int 30], shape nested_value).
Proof.
  assert (Forall (λ v, _is_leaf v = true) [int 10; int 20; int 30]) as Hl.
  { repeat constructor. }
  split; [exact Hl|]. split; [reflexivity|].
  apply (tree_flatten_tree_unflatten [int 10; int 20; int 30]
           (shape nested_value)); [exact Hl|reflexivity|].
  left. exists nested_value, [int 1; int 2; int 3].
  split; reflexivity.
Defined.

Lemma num_leaves_counts_leaves_witness :
  constructed two_leaf_list_spec
  ∧ num_leaves two_leaf_list_spec = count_LeafSpec two_leaf_list_spec
  ∧ ∃ leaves spec,
      tree_flatten nested_value = Ok (leaves, spec)
      ∧ constructed spec
      ∧ length leaves = num_leaves spec.
Proof.
  assert (constructed two_leaf_list_spec) as Hc.
  { apply constructed_node. repeat constructor. }
  split; [exact Hc|].
  apply (num_leaves_counts_leaves two_leaf_list_spec nested_value Hc).
Defined.

(** C5 as stated fails on [TreeSpec(None, None, [])], a [TreeSpec] holding
    no leaves: unflattening the empty list against it raises [KeyError] at
    the registry lookup, and unflattening one value against it raises
    [AttributeError] while the message of the mismatch is formatted. *)
Lemma tree_unflatten_childless_spec_raises :
  isinstance_TreeSpec (OSpec (atom:=Z) childless_spec) = true
  ∧ constructed childless_spec
  ∧ length (@nil (pyval Z string)) = num_leaves childless_spec
  ∧ tree_unflatten (@nil (pyval Z string)) (OSpec childless_spec)
    = Raise KeyError
  ∧ length [int 1] ≠ num_leaves childless_spec
  ∧ tree_unflatten [int 1] (OSpec childless_spec) = Raise AttributeError.
Proof.
  split; [reflexivity|]. split; [apply constructed_node; constructor|].
  split; [reflexivity|]. split; [reflexivity|]. split; [discriminate|].
  reflexivity.
Qed.

Lemma tree_unflatten_errors_witness :
  (∀ s, OSpec (atom:=Z) (shape nested_value) = OSpec s → constructed s)
  ∧ length [int 10; int 20; int 30] = num_leaves (shape nested_value)
  ∧ recomposable (shape nested_value) = true
  ∧ ∃ x, tree_unflatten [int 10; int 20; int 30] (OSpec (shape nested_value))
         = Ok x.
Proof.
  assert (∀ s, OSpec (atom:=Z) (shape nested_value) = OSpec s → constructed s)
    as Hc.
  { intros s [= <-]. exact (constructed_shape nested_value). }
  split; [exact Hc|]. split; [reflexivity|]. split; [reflexivity|].
  destruct (tree_unflatten_errors [int 10; int 20; int 30]
              (OSpec (shape nested_value)) Hc) as (_ & _ & _ & _ & _ & Hret).
  apply (Hret (shape nested_value) eq_refl eq_refl). reflexivity.
Defined.

Lemma TreeSpec_eq_is_structural_witness :
  constructed (shape dict_a1_b2) ∧ constructed (shape dict_b2_a1)
  ∧ (TreeSpec_eq (shape dict_a1_b2) (shape dict_b2_a1) = true
     ↔ structurally_equal (shape dict_a1_b2) (shape dict_b2_a1) = true).
Proof.
  split; [apply constructed_shape|]. split; [apply constructed_shape|].
  apply (TreeSpec_eq_is_structural (shape dict_a1_b2)
           (shape dict_b2_a1));
    apply constructed_shape.
Defined.

Lemma broadcast_leaf_witness :
  _is_leaf (int 0) = true
  ∧ _broadcast_to_and_flatten (int 0) (OSpec two_leaf_list_spec)
    = Ok (Some (replicate (num_leaves two_leaf_list_spec) (int 0))).
Proof.
  split; [reflexivity|].
  apply (broadcast_leaf (int 0) two_leaf_list_spec). reflexivity.
Defined.

Lemma broadcast_container_witness :
  _is_leaf (PList [int 1; int 2; int 3]) = false
  ∧ (_broadcast_to_and_flatten (PList [int 1; int 2; int 3])
       (OSpec two_leaf_list_spec) = Ok None
     ↔ is_LeafSpec two_leaf_list_spec = true
       ∨ Some (type_of (PList [int 1; int 2; int 3])) ≠ type two_leaf_list_spec
       ∨ length [int 1; int 2; int 3]
         ≠ length (children_specs two_leaf_list_spec)
       ∨ CNone ≠ context two_leaf_list_spec
       ∨ ∃ i child child_spec,
           [int 1; int 2; int 3] !! i = Some child
           ∧ children_specs two_leaf_list_spec !! i = Some child_spec
           ∧ _broadcast_to_and_flatten child (OSpec child_spec) = Ok None).
Proof.
  split; [reflexivity|].
  destruct (broadcast_container (PList [int 1; int 2; int 3])
              two_leaf_list_spec eq_refl)
    as (nd & child_pytrees & ctx & Hget & Hflat & Hiff & _).
  rewrite getitem_list in Hget. injection Hget as <-.
  injection Hflat as <- <-. exact Hiff.
Defined.

(** C9 as stated fails when the second argument is not a [TreeSpec]: the
    [assert] raises. *)
Lemma broadcast_not_a_spec_AssertionError :
  _broadcast_to_and_flatten (int 0) (OValue (int 5)) = Raise AssertionError.
Proof. reflexivity. Qed.

Lemma broadcast_never_raises_witness :
  isinstance_TreeSpec (OSpec (atom:=Z) two_leaf_list_spec) = true
  ∧ ∃ r, _broadcast_to_and_flatten (PList [int 1; int 2; int 3])
           (OSpec two_leaf_list_spec) = Ok r.
Proof.
  split; [reflexivity|].
  apply (broadcast_never_raises (PList [int 1; int 2; int 3])
           (OSpec two_leaf_list_spec)). reflexivity.
Defined.

Lemma broadcast_length_witness :
  constructed two_leaf_list_spec
  ∧ _broadcast_to_and_flatten (int 0) (OSpec two_leaf_list_spec)
    = Ok (Some [int 0; int 0])
  ∧ length [int 0; int 0] = num_leaves two_leaf_list_spec.
Proof.
  assert (constructed two_leaf_list_spec) as Hc.
  { apply constructed_node. repeat constructor. }
  split; [exact Hc|]. split; [reflexivity|].
  apply (broadcast_length (int 0) two_leaf_list_spec [int 0; int 0] Hc).
  reflexivity.
Defined.

(** ** Examples and witnesses for the further properties *)

(** The rendering of the spec of [{"x": [1, 2], "y": (3,)}]. *)
Example TreeSpec_repr_nested_value :
  TreeSpec_repr (shape nested_value)
  = Ok "TreeSpec(dict, ['x', 'y'], [TreeSpec(list, None, [*, *]), TreeSpec(tuple, None, [*])])"%string.
Proof. reflexivity. Qed.

(** [TreeSpec(None, None, [])] has no rendering, so a mismatch of the
    counts against it surfaces as [AttributeError]. *)
Example raise_length_mismatch_childless_spec :
  TreeSpec_repr childless_spec = Raise AttributeError
  ∧ raise_length_mismatch [int 1] childless_spec
    = Raise AttributeError.
Proof. split; reflexivity. Qed.

(** A key that occurs twice keeps its first position and its last value. *)
Example _dict_unflatten_duplicate_key :
  _dict_unflatten [int 1; int 2; int 3] (CKeys ["a"; "b"; "a"]%string)
  = Ok (PDict [("a"%string, int 3); ("b"%string, int 2)]).
Proof. reflexivity. Qed.

Lemma unflatten_fn_flatten_fn_witness :
  _is_leaf dict_a1_b2 = false ∧ py_wf dict_a1_b2 = true
  ∧ ∃ nd child_pytrees context,
      SUPPORTED_NODES_getitem (Some (type_of dict_a1_b2)) = Ok nd
      ∧ flatten_fn nd dict_a1_b2 = Ok (child_pytrees, context)
      ∧ unflatten_fn nd child_pytrees context = Ok dict_a1_b2.
Proof.
  split; [reflexivity|]. split; [reflexivity|].
  apply (unflatten_fn_flatten_fn dict_a1_b2); reflexivity.
Defined.

Lemma flatten_fn_unflatten_fn_witness :
  context_fits (Some Tdict) (CKeys ["a"; "b"]%string) (length [int 1; int 2])
  = true
  ∧ ∃ nd v,
      SUPPORTED_NODES_getitem (Some Tdict) = Ok nd
      ∧ unflatten_fn nd [int 1; int 2] (CKeys ["a"; "b"]%string) = Ok v
      ∧ type_of v = Tdict
      ∧ flatten_fn nd v = Ok ([int 1; int 2], CKeys ["a"; "b"]%string).
Proof.
  split; [reflexivity|].
  apply (flatten_fn_unflatten_fn Tdict [int 1; int 2]
           (CKeys ["a"; "b"]%string)). reflexivity.
Defined.

Lemma tree_flatten_container_witness :
  _is_leaf (PList [int 1; PTuple [int 2; int 3]]) = false
  ∧ tree_flatten (PList [int 1; PTuple [int 2; int 3]])
    = Ok ([int 1; int 2; int 3],
          TreeSpec_init (Some Tlist) CNone
            [LeafSpec_init;
             TreeSpec_init (Some Ttuple) CNone [LeafSpec_init; LeafSpec_init]]).
Proof.
  split; [reflexivity|].
  apply (tree_flatten_container (PList [int 1; PTuple [int 2; int 3]])
           (MkNodeDef _list_flatten _list_unflatten)
           [int 1; PTuple [int 2; int 3]] CNone
           [([int 1], LeafSpec_init);
            ([int 2; int 3],
             TreeSpec_init (Some Ttuple) CNone [LeafSpec_init; LeafSpec_init])]);
    try reflexivity.
  repeat constructor.
Defined.

Lemma tree_flatten_injective_witness :
  py_wf nested_value = true
  ∧ tree_flatten nested_value = tree_flatten nested_value
  ∧ nested_value = nested_value.
Proof.
  split; [reflexivity|]. split; [reflexivity|].
  apply (tree_flatten_injective nested_value nested_value); reflexivity.
Defined.

Lemma tree_unflatten_container_witness :
  SUPPORTED_NODES_getitem (Some Tlist)
  = Ok (MkNodeDef (atom:=Z) (key:=string) _list_flatten _list_unflatten)
  ∧ tree_unflatten ([int 1] ++ [int 2; int 3])
      (OSpec (TreeSpec_init (Some Tlist) CNone
                [LeafSpec_init; two_leaf_list_spec]))
    = Ok (PList [int 1; PList [int 2; int 3]]).
Proof.
  split; [reflexivity|].
  apply (tree_unflatten_container (Some Tlist) CNone
           [LeafSpec_init; two_leaf_list_spec] [[int 1]; [int 2; int 3]]
           [int 1; PList [int 2; int 3]]
           (MkNodeDef _list_flatten _list_unflatten)); [reflexivity|].
  repeat constructor.
Defined.

Lemma tree_unflatten_py_wf_witness :
  Forall (λ v, py_wf v = true) [int 1; int 2; int 3]
  ∧ tree_unflatten [int 1; int 2; int 3] (OSpec (shape nested_value))
    = Ok (PDict [("x"%string, PList [int 1; int 2]);
                 ("y"%string, PTuple [int 3])])
  ∧ py_wf (PDict [("x"%string, PList [int 1; int 2]);
                  ("y"%string, PTuple [int 3])]) = true.
Proof.
  assert (Forall (λ v : pyval Z string, py_wf v = true) [int 1; int 2; int 3])
    as Hwf by repeat constructor.
  split; [exact Hwf|]. split; [reflexivity|].
  apply (tree_unflatten_py_wf [int 1; int 2; int 3]
           (OSpec (shape nested_value)) _ Hwf). reflexivity.
Defined.

Lemma tree_unflatten_exceptions_witness :
  constructed (TreeSpec_init (key:=string) (Some Tother) CNone [])
  ∧ renderable (TreeSpec_init (key:=string) (Some Tother) CNone []) = true
  ∧ tree_unflatten (@nil (pyval Z string))
      (OSpec (TreeSpec_init (Some Tother) CNone [])) = Raise KeyError
  ∧ recomposable (TreeSpec_init (key:=string) (Some Tother) CNone []) = false.
Proof.
  assert (constructed (TreeSpec_init (key:=string) (Some Tother) CNone []))
    as Hc.
  { apply constructed_node. constructor. }
  split; [exact Hc|]. split; [reflexivity|]. split; [reflexivity|].
  destruct (tree_unflatten_exceptions (@nil (pyval Z string))
              (TreeSpec_init (Some Tother) CNone []) KeyError Hc eq_refl
              eq_refl) as [[[=] _]|(_ & _ & Hr)].
  exact Hr.
Defined.

Lemma broadcast_leaves_witness :
  _broadcast_to_and_flatten
    (PDict [("x"%string, int 7); ("y"%string, PTuple [int 3])])
    (OSpec (shape nested_value)) = Ok (Some [int 7; int 7; int 3])
  ∧ ∃ leaves s,
      tree_flatten (PDict [("x"%string, int 7); ("y"%string, PTuple [int 3])])
      = Ok (leaves, s)
      ∧ Forall (λ leaf, _is_leaf leaf = true ∧ leaf ∈ leaves)
          [int 7; int 7; int 3].
Proof.
  split; [reflexivity|].
  apply (broadcast_leaves
           (PDict [("x"%string, int 7); ("y"%string, PTuple [int 3])])
           (shape nested_value)). reflexivity.
Defined.

Lemma broadcast_unflatten_witness :
  compatible_with_decomposition (shape nested_value) = true
  ∧ _broadcast_to_and_flatten
      (PDict [("x"%string, int 7); ("y"%string, PTuple [int 3])])
      (OSpec (shape nested_value)) = Ok (Some [int 7; int 7; int 3])
  ∧ ∃ x, tree_unflatten [int 7; int 7; int 3] (OSpec (shape nested_value))
         = Ok x
         ∧ tree_flatten x = Ok ([int 7; int 7; int 3], shape nested_value).
Proof.
  split; [reflexivity|]. split; [reflexivity|].
  apply (broadcast_unflatten
           (PDict [("x"%string, int 7); ("y"%string, PTuple [int 3])])
           (shape nested_value)); reflexivity.
Defined.

Lemma broadcast_tree_unflatten_witness :
  Forall (λ leaf, _is_leaf leaf = true) [int 10; int 20; int 30]
  ∧ length [int 10; int 20; int 30] = num_leaves (shape nested_value)
  ∧ compatible_with_decomposition (shape nested_value) = true
  ∧ ∃ x, tree_unflatten [int 10; int 20; int 30] (OSpec (shape nested_value))
         = Ok x
         ∧ _broadcast_to_and_flatten x (OSpec (shape nested_value))
           = Ok (Some [int 10; int 20; int 30]).
Proof.
  assert (Forall (λ leaf : pyval Z string, _is_leaf leaf = true)
            [int 10; int 20; int 30]) as Hl by repeat constructor.
  split; [exact Hl|]. split; [reflexivity|]. split; [reflexivity|].
  apply (broadcast_tree_unflatten [int 10; int 20; int 30]
           (shape nested_value) Hl); reflexivity.
Defined.

Lemma TreeSpec_ne_differ_witness :
  constructed (shape dict_a1_b2) ∧ constructed (shape dict_b2_a1)
  ∧ (TreeSpec_ne (shape dict_a1_b2) (shape dict_b2_a1) = true
     ↔ shape dict_a1_b2 ≠ shape dict_b2_a1).
Proof.
  split; [apply constructed_shape|]. split; [apply constructed_shape|].
  apply (TreeSpec_ne_differ (shape dict_a1_b2) (shape dict_b2_a1));
    apply constructed_shape.
Defined.

Lemma tree_unflatten_equal_spec_witness :
  py_wf dict_a1_b2 = true
  ∧ ∃ leaves_x spec_x leaves_y spec_y,
      tree_flatten dict_a1_b2 = Ok (leaves_x, spec_x)
      ∧ tree_flatten dict_a3_b4 = Ok (leaves_y, spec_y)
      ∧ (TreeSpec_eq spec_x spec_y = true →
         tree_unflatten leaves_x (OSpec spec_y) = Ok dict_a1_b2
         ∧ length leaves_x = length leaves_y).
Proof.
  split; [reflexivity|].
  apply (tree_unflatten_equal_spec dict_a1_b2 dict_a3_b4). reflexivity.
Defined.
